(** * CodeTools: formatter dispatch, diff engine and three-buffer diff panel

    A shallow embedding of [formatter.js], [differ.js] and the handlers of
    [app.js], in its three-pane and in its older two-pane version.
    JavaScript strings are sequences of UTF-16 code units; the third-party
    libraries the page loads as globals (js-beautify, Prettier,
    sql-formatter, jsdiff, diff2html) and the built-in [JSON] object are
    fields of a runtime record, each of them possibly absent; the editors
    are CodeMirror documents, which hold every line break as a line feed. *)

From Stdlib Require Import String Ascii DecimalString.
From Stdlib Require Import List NArith Bool Arith Lia.
From Equations Require Import Equations.
Import ListNotations.

(** ** JavaScript strings *)

Module JsString.

(** A UTF-16 code unit. *)
Definition char := N.
Definition jsstring := list char.

(** A string literal of the source, for literals within ASCII. *)
Definition js (s : string) : jsstring :=
  map N_of_ascii (list_ascii_of_string s).

Definition LF : char := 10%N.
Definition CR : char := 13%N.
Definition TAB : char := 9%N.
Definition SP : char := 32%N.

Definition is_nl (c : char) : bool := N.eqb c LF.

(** The class [\s] of a regular expression, which is also what
    [String.prototype.trim] strips: WhiteSpace and LineTerminator. *)
Definition is_space (c : char) : bool :=
  (N.leb 9 c && N.leb c 13)
  || N.eqb c 32 || N.eqb c 160 || N.eqb c 5760
  || (N.leb 8192 c && N.leb c 8202)
  || N.eqb c 8232 || N.eqb c 8233 || N.eqb c 8239
  || N.eqb c 8287 || N.eqb c 12288 || N.eqb c 65279.

(** [a === b] on two strings. *)
Fixpoint eqb (a b : jsstring) : bool :=
  match a, b with
  | [], [] => true
  | x :: a', y :: b' => N.eqb x y && eqb a' b'
  | _, _ => false
  end.

(** Truthiness of a string: every string but the empty one. *)
Definition truthy (s : jsstring) : bool :=
  match s with [] => false | _ :: _ => true end.

Fixpoint lstrip_by (p : char -> bool) (s : jsstring) : jsstring :=
  match s with
  | [] => []
  | c :: r => if p c then lstrip_by p r else s
  end.

(** Removal of the longest suffix whose characters all satisfy [p]:
    [s.replace(/\s+$/, '')] for [p := is_space]. *)
Fixpoint rstrip_by (p : char -> bool) (s : jsstring) : jsstring :=
  match s with
  | [] => []
  | c :: r =>
      match rstrip_by p r with
      | [] => if p c then [] else [c]
      | r' => c :: r'
      end
  end.

(** [s.trim()] *)
Definition trim (s : jsstring) : jsstring :=
  rstrip_by is_space (lstrip_by is_space s).

(** [s.endsWith('\n')] *)
Definition endsWith_nl (s : jsstring) : bool :=
  match rev s with
  | c :: _ => is_nl c
  | [] => false
  end.

(** [s.split(sep)] for a separator of one character. *)
Fixpoint split_on (sep : char) (s : jsstring) : list jsstring :=
  match s with
  | [] => [[]]
  | c :: r =>
      if N.eqb c sep then [] :: split_on sep r
      else match split_on sep r with
           | l :: ls => (c :: l) :: ls
           | [] => [[c]]
           end
  end.

(** [lines.join(sep)] *)
Fixpoint join_with (sep : char) (ls : list jsstring) : jsstring :=
  match ls with
  | [] => []
  | [l] => l
  | l :: ls' => l ++ sep :: join_with sep ls'
  end.

(** [s.replace(/\r\n/g, '\n')] *)
Fixpoint replace_crlf (s : jsstring) : jsstring :=
  match s with
  | [] => []
  | c :: t =>
      match t with
      | d :: r =>
          if N.eqb c CR && N.eqb d LF then LF :: replace_crlf r
          else c :: replace_crlf t
      | [] => [c]
      end
  end.

(** [s.replace(/\r/g, '\n')] *)
Definition replace_cr (s : jsstring) : jsstring :=
  map (fun c => if N.eqb c CR then LF else c) s.

(** [s.replace(/\t/g, '    ')] *)
Definition replace_tab (s : jsstring) : jsstring :=
  flat_map (fun c => if N.eqb c TAB then [SP; SP; SP; SP] else [c]) s.

(** Number of line feeds the string starts with. *)
Fixpoint leading_nl (s : jsstring) : nat :=
  match s with
  | c :: r => if is_nl c then S (leading_nl r) else 0
  | [] => 0
  end.

(** [s.replace(/\n{4,}/g, '\n\n\n')]: scanning from the left, a position
    where at least four line feeds start is a match, which is greedy and
    so takes the whole run; elsewhere the character is copied. *)
Equations? replace_nl_runs (s : jsstring) : jsstring by wf (length s) lt :=
  replace_nl_runs [] := [];
  replace_nl_runs (c :: r) with Nat.leb 4 (leading_nl (c :: r)) => {
    | true := LF :: LF :: LF :: replace_nl_runs (lstrip_by is_nl r);
    | false := c :: replace_nl_runs r }.
Proof.
  clear. induction r as [|d r IH]; simpl; [lia|].
  destruct (is_nl d); simpl; lia.
Qed.

(** [s.replace(/\n*$/, '\n')]: without the [g] flag only the first match
    is replaced, and the first position from which line feeds run to the
    end of the string is the start of the trailing run. *)
Definition replace_trailing_nl (s : jsstring) : jsstring :=
  rstrip_by is_nl s ++ [LF].

End JsString.
Import JsString.

(** ** formatter.js: the Python clean-up *)

Definition formatPython (code : jsstring) : jsstring :=
  let result :=
    replace_trailing_nl
      (replace_nl_runs
         (join_with LF
            (map (rstrip_by is_space)
               (split_on LF
                  (replace_tab (replace_cr (replace_crlf code))))))) in
  result.

(** ** Values shared by the three files *)

(** A call either returns or throws; what is thrown is an [Error], of which
    only the [message] is ever read. *)
Inductive result (T : Type) : Type :=
| Ok (value : T)
| Throw (message : jsstring).
Arguments Ok {T} value.
Arguments Throw {T} message.

(** [cond || fallback] on a value that may be [undefined]. *)
Definition or_else (v : option jsstring) (fallback : jsstring) : jsstring :=
  match v with
  | Some s => if truthy s then s else fallback
  | None => fallback
  end.

(** Decimal digits of a number in a template literal. *)
Definition decimal (n : nat) : jsstring :=
  js (DecimalString.NilZero.string_of_uint (Nat.to_uint n)).

(** ** The libraries loaded as globals *)

(** The option object given to js-beautify; a key the object literal does
    not have is [None]. *)
Record BeautifyOptions : Type := {
  indent_size : option N;
  space_in_empty_paren : option bool;
  preserve_newlines : option bool;
  max_preserve_newlines : option N;
  end_with_newline : option bool;
  wrap_line_length : option N;
  indent_inner_html : option bool;
  newline_between_rules : option bool;
  content_unformatted : option (list jsstring);
  unformatted : option (list jsstring) }.

Definition Beautifier : Type := jsstring -> BeautifyOptions -> result jsstring.

(** What [window[name]] holds when it is truthy: a function, or an object
    whose property of the same name may be a function. *)
Inductive BeautifyGlobal : Type :=
| GlobalFunction (f : Beautifier)
| GlobalObject (method : option Beautifier).

Definition Plugin : Type := jsstring.

Record PrettierPlugins : Type := {
  babel : option Plugin;
  estree : option Plugin;
  plugin_values : list Plugin }.

Record PrettierOptions : Type := {
  parser : jsstring;
  plugins : list (option Plugin);
  tabWidth : N }.

(** The built-in [JSON] object: [parse] throws a [SyntaxError],
    [stringify] takes the indentation as its third argument. *)
Record JSONObject : Type := {
  JSONValue : Type;
  JSON_parse : jsstring -> result JSONValue;
  JSON_stringify : JSONValue -> N -> jsstring }.

(** The [language] given to sql-formatter: a dialect name, or what the
    lookup in the [languageMap] object literal inherits from
    [Object.prototype] under that property name. *)
Inductive SqlLanguage : Type :=
| SqlDialect (name : jsstring)
| SqlInherited (property : jsstring).

Record SqlFormatOptions : Type := {
  language : SqlLanguage;
  indent : jsstring;
  uppercase : bool;
  linesBetweenQueries : N }.

Record PatchOptions : Type := { context : N }.

Record Diff2HtmlConfig : Type := {
  drawFileList : bool;
  matching : jsstring;
  outputFormat : jsstring;
  highlight : bool;
  colorScheme : jsstring }.

(** [createTwoFilesPatch oldFileName newFileName oldStr newStr oldHeader
    newHeader options] *)
Definition TwoFilesPatch : Type :=
  jsstring -> jsstring -> jsstring -> jsstring -> jsstring -> jsstring ->
  PatchOptions -> jsstring.

(** [new Diff2HtmlUI(targetEl, unifiedDiff, configuration).draw()], as the
    markup it leaves in the target element. *)
Definition Diff2Html : Type := jsstring -> Diff2HtmlConfig -> jsstring.

Record Runtime : Type := {
  window : jsstring -> option BeautifyGlobal;
  prettier : option (jsstring -> PrettierOptions -> result jsstring);
  prettierPlugins : option PrettierPlugins;
  JSON : JSONObject;
  (** [String.prototype.toUpperCase] *)
  toUpperCase : jsstring -> jsstring;
  sqlFormatter : option (jsstring -> SqlFormatOptions -> result jsstring);
  Diff : option TwoFilesPatch;
  Diff2HtmlUI : option Diff2Html;
  (** [document.documentElement.getAttribute('data-theme')] *)
  data_theme : option jsstring }.

(** ** formatter.js *)

Record FormatOptions : Type := { sqlDialect : option jsstring }.

(** The default [options = {}]. *)
Definition no_options : FormatOptions := {| sqlDialect := None |}.

Definition getBeautify (rt : Runtime) (name : jsstring) : option Beautifier :=
  match window rt name with
  | None => None
  | Some (GlobalFunction g) => Some g
  | Some (GlobalObject (Some m)) => Some m
  | Some (GlobalObject None) => None
  end.

Definition javascript_options : BeautifyOptions := {|
  indent_size := Some 2%N;
  space_in_empty_paren := Some false;
  preserve_newlines := Some true;
  max_preserve_newlines := Some 2%N;
  end_with_newline := Some true;
  wrap_line_length := None;
  indent_inner_html := None;
  newline_between_rules := None;
  content_unformatted := None;
  unformatted := None |}.

Definition formatJavaScript (rt : Runtime) (code : jsstring) : result jsstring :=
  match getBeautify rt (js "js_beautify") with
  | None =>
      Throw (js "JavaScript formatter (js-beautify) is not loaded. Check your internet connection.")
  | Some beautify => beautify code javascript_options
  end.

Definition formatJSON (rt : Runtime) (code : jsstring) : result jsstring :=
  let fallback :=
    match JSON_parse (JSON rt) code with
    | Ok parsed => Ok (JSON_stringify (JSON rt) parsed 2%N ++ [LF])
    | Throw e_message => Throw (js "Invalid JSON: " ++ e_message)
    end in
  match prettier rt, prettierPlugins rt with
  | Some prettier_format, Some pp =>
      match
        prettier_format code
          {| parser := js "json";
             plugins := match babel pp with
                        | Some b => [Some b; estree pp]
                        | None => map Some (plugin_values pp)
                        end;
             tabWidth := 2%N |}
      with
      | Ok formatted => Ok formatted
      | Throw _ => fallback
      end
  | _, _ => fallback
  end.

Definition html_options : BeautifyOptions := {|
  indent_size := Some 2%N;
  space_in_empty_paren := None;
  preserve_newlines := Some true;
  max_preserve_newlines := Some 2%N;
  end_with_newline := Some true;
  wrap_line_length := Some 120%N;
  indent_inner_html := Some true;
  newline_between_rules := None;
  content_unformatted := None;
  unformatted := None |}.

Definition formatHTML (rt : Runtime) (code : jsstring) : result jsstring :=
  match getBeautify rt (js "html_beautify") with
  | None =>
      Throw (js "HTML formatter (js-beautify) is not loaded. Check your internet connection.")
  | Some beautify => beautify code html_options
  end.

Definition css_options : BeautifyOptions := {|
  indent_size := Some 2%N;
  space_in_empty_paren := None;
  preserve_newlines := None;
  max_preserve_newlines := None;
  end_with_newline := Some true;
  wrap_line_length := None;
  indent_inner_html := None;
  newline_between_rules := Some true;
  content_unformatted := None;
  unformatted := None |}.

Definition formatCSS (rt : Runtime) (code : jsstring) : result jsstring :=
  match getBeautify rt (js "css_beautify") with
  | None =>
      Throw (js "CSS formatter (js-beautify) is not loaded. Check your internet connection.")
  | Some beautify => beautify code css_options
  end.

(** Own keys of the [languageMap] literal; each maps to itself. *)
Definition languageMap_keys : list jsstring :=
  [js "sql"; js "mysql"; js "postgresql"; js "plsql"; js "tsql"; js "spark";
   js "mariadb"; js "redshift"].

(** Property names every object literal inherits, all with truthy values. *)
Definition object_prototype_keys : list jsstring :=
  [js "constructor"; js "toString"; js "toLocaleString"; js "valueOf";
   js "hasOwnProperty"; js "isPrototypeOf"; js "propertyIsEnumerable";
   js "__proto__"; js "__defineGetter__"; js "__defineSetter__";
   js "__lookupGetter__"; js "__lookupSetter__"].

(** [languageMap[dialect] || 'sql'] *)
Definition languageMap_lookup (dialect : jsstring) : SqlLanguage :=
  if existsb (eqb dialect) languageMap_keys then SqlDialect dialect
  else if existsb (eqb dialect) object_prototype_keys then SqlInherited dialect
  else SqlDialect (js "sql").

Definition formatSQL (rt : Runtime) (code dialect : jsstring) : result jsstring :=
  match sqlFormatter rt with
  | None => Throw (js "SQL formatter is not loaded. Check your internet connection.")
  | Some sqlFormatter_format =>
      sqlFormatter_format code
        {| language := languageMap_lookup dialect;
           indent := js "  ";
           uppercase := true;
           linesBetweenQueries := 2%N |}
  end.

Definition xml_options : BeautifyOptions := {|
  indent_size := Some 2%N;
  space_in_empty_paren := None;
  preserve_newlines := Some true;
  max_preserve_newlines := Some 2%N;
  end_with_newline := Some true;
  wrap_line_length := Some 120%N;
  indent_inner_html := None;
  newline_between_rules := None;
  content_unformatted := Some [];
  unformatted := Some [] |}.

Definition formatXML (rt : Runtime) (code : jsstring) : result jsstring :=
  match getBeautify rt (js "html_beautify") with
  | None =>
      Throw (js "XML formatter (js-beautify) is not loaded. Check your internet connection.")
  | Some beautify => beautify code xml_options
  end.

Definition formatCode (rt : Runtime) (code language : jsstring)
    (options : FormatOptions) : result jsstring :=
  if negb (truthy (trim code)) then
    Throw (js "No code to format. Please enter some code in the input editor.")
  else if eqb language (js "javascript") then formatJavaScript rt code
  else if eqb language (js "json") then formatJSON rt code
  else if eqb language (js "html") then formatHTML rt code
  else if eqb language (js "css") then formatCSS rt code
  else if eqb language (js "sql") then
    formatSQL rt code (or_else (sqlDialect options) (js "sql"))
  else if eqb language (js "xml") then formatXML rt code
  else if eqb language (js "python") then Ok (formatPython code)
  else Throw (js "Unsupported language: " ++ language).

(** ** differ.js *)

Record DiffOptions : Type := {
  (** the target element, given by its [innerHTML] *)
  targetEl : option jsstring;
  viewMode : option jsstring;
  fileName : option jsstring;
  baseLabel : option jsstring;
  otherLabel : option jsstring }.

Record DiffResult : Type := { identical : bool }.

(** Default of a destructured property, used when it is [undefined]. *)
Definition default_to (v : option jsstring) (d : jsstring) : jsstring :=
  match v with Some s => s | None => d end.

Definition dquote : jsstring := [34%N].

Definition no_changes_identical_html : jsstring :=
  js "<div class=" ++ dquote ++ js "diff-no-changes" ++ dquote
  ++ js ">No differences found - both inputs are identical.</div>".

Definition no_changes_empty_html : jsstring :=
  js "<div class=" ++ dquote ++ js "diff-no-changes" ++ dquote
  ++ js ">Both inputs are empty.</div>".

Definition target_required_message : jsstring :=
  js "Target element is required for diff rendering.".
Definition jsdiff_missing_message : jsstring :=
  js "jsdiff library is not loaded. Check your internet connection.".
Definition diff2html_missing_message : jsstring :=
  js "diff2html library is not loaded. Check your internet connection.".

(** Returns the [innerHTML] the target element is left with (when there is
    a target element) next to what the call returns or throws. *)
Definition computeAndRenderDiff (rt : Runtime) (original modified : jsstring)
    (options : DiffOptions) : option jsstring * result DiffResult :=
  let viewMode := default_to (viewMode options) (js "line-by-line") in
  let fileName := default_to (fileName options) (js "file") in
  match targetEl options with
  | None => (None, Throw target_required_message)
  | Some _ =>
      if eqb original modified then
        (Some no_changes_identical_html, Ok {| identical := true |})
      else if negb (truthy (trim original)) && negb (truthy (trim modified)) then
        (Some no_changes_empty_html, Ok {| identical := true |})
      else
        let origText := if endsWith_nl original then original else original ++ [LF] in
        let modText := if endsWith_nl modified then modified else modified ++ [LF] in
        match Diff rt with
        | None => (Some [], Throw jsdiff_missing_message)
        | Some createTwoFilesPatch =>
            let origHeader := or_else (baseLabel options) (fileName ++ js " (original)") in
            let modHeader := or_else (otherLabel options) (fileName ++ js " (modified)") in
            let unifiedDiff :=
              createTwoFilesPatch origHeader modHeader origText modText [] []
                {| context := 3%N |} in
            match Diff2HtmlUI rt with
            | None => (Some [], Throw diff2html_missing_message)
            | Some draw =>
                let configuration := {|
                  drawFileList := false;
                  matching := js "lines";
                  outputFormat := viewMode;
                  highlight := true;
                  colorScheme :=
                    match data_theme rt with
                    | Some t => if eqb t (js "dark") then js "dark" else js "light"
                    | None => js "light"
                    end |} in
                (Some (draw unifiedDiff configuration), Ok {| identical := false |})
            end
        end
  end.

(** ** app.js: the page and its handlers *)

Inductive Key : Type := A | B | C.

Definition key_eqb (j k : Key) : bool :=
  match j, k with
  | A, A | B, B | C, C => true
  | _, _ => false
  end.

Definition key_name (k : Key) : jsstring :=
  match k with A => js "A" | B => js "B" | C => js "C" end.

(** A CodeMirror document keeps its text as lines.  No editor of the page
    configures [lineSeparator], so a text given to a document is split at
    every CR LF, CR and LF, and [doc.toString()] joins the lines with LF:
    what is read from a document is the text it was given with every line
    break turned into LF. *)
Definition normalize_line_breaks (text : jsstring) : jsstring :=
  replace_cr (replace_crlf text).

(** The documents of the five editors.  A document is given by a text it
    holds the lines of: [setEditorContent] keeps the text with its line
    breaks as LF, and [getEditorContent] reads any text that way. *)
Record Editors : Type := {
  formatInput : jsstring;
  formatOutput : jsstring;
  diffA : jsstring;
  diffB : jsstring;
  diffC : jsstring }.

(** Values of the three [.editor-title-input] elements; [None] when the
    page has no such element. *)
Record TitleInputs : Type := {
  titleA : option jsstring;
  titleB : option jsstring;
  titleC : option jsstring }.

Record DiffResultElement : Type := {
  diff_result_header : jsstring;
  diff_result_body : jsstring }.

Record Status : Type := { message : jsstring; type : jsstring }.

Record Page : Type := {
  editors : Editors;
  title_inputs : TitleInputs;
  (** [diffState.primary] *)
  primary : Key;
  diff_view_mode : jsstring;
  diff_language : jsstring;
  format_language : jsstring;
  sql_dialect : jsstring;
  diff_output_container : list DiffResultElement;
  status_bar : option Status }.

(** [editor.view.state.doc.toString()] *)
Definition getEditorContent (editor : jsstring) : jsstring :=
  normalize_line_breaks editor.

(** The document after the dispatch that replaces all of it, from [0] to
    [doc.length], by [content]: it holds the lines of [content]. *)
Definition setEditorContent (editor content : jsstring) : jsstring :=
  normalize_line_breaks content.

Definition getDiffEditor (p : Page) (key : Key) : jsstring :=
  match key with
  | A => diffA (editors p)
  | B => diffB (editors p)
  | C => diffC (editors p)
  end.

(** [getEditorContent(getDiffEditor(key))] *)
Definition getDiffEditorContent (p : Page) (key : Key) : jsstring :=
  getEditorContent (getDiffEditor p key).

Definition with_editors (p : Page) (e : Editors) : Page := {|
  editors := e;
  title_inputs := title_inputs p;
  primary := primary p;
  diff_view_mode := diff_view_mode p;
  diff_language := diff_language p;
  format_language := format_language p;
  sql_dialect := sql_dialect p;
  diff_output_container := diff_output_container p;
  status_bar := status_bar p |}.

(** [setEditorContent(getDiffEditor(key), content)] *)
Definition setDiffEditorContent (p : Page) (key : Key) (content : jsstring) : Page :=
  let e := editors p in
  with_editors p
    match key with
    | A => {| formatInput := formatInput e; formatOutput := formatOutput e;
              diffA := setEditorContent (diffA e) content;
              diffB := diffB e; diffC := diffC e |}
    | B => {| formatInput := formatInput e; formatOutput := formatOutput e;
              diffA := diffA e;
              diffB := setEditorContent (diffB e) content;
              diffC := diffC e |}
    | C => {| formatInput := formatInput e; formatOutput := formatOutput e;
              diffA := diffA e; diffB := diffB e;
              diffC := setEditorContent (diffC e) content |}
    end.

(** [setEditorContent(editors.formatOutput, content)] *)
Definition setFormatOutput (p : Page) (content : jsstring) : Page :=
  let e := editors p in
  with_editors p
    {| formatInput := formatInput e;
       formatOutput := setEditorContent (formatOutput e) content;
       diffA := diffA e; diffB := diffB e; diffC := diffC e |}.

Definition title_input (p : Page) (key : Key) : option jsstring :=
  match key with
  | A => titleA (title_inputs p)
  | B => titleB (title_inputs p)
  | C => titleC (title_inputs p)
  end.

Definition with_title_inputs (p : Page) (t : TitleInputs) : Page := {|
  editors := editors p;
  title_inputs := t;
  primary := primary p;
  diff_view_mode := diff_view_mode p;
  diff_language := diff_language p;
  format_language := format_language p;
  sql_dialect := sql_dialect p;
  diff_output_container := diff_output_container p;
  status_bar := status_bar p |}.

Definition with_container (p : Page) (c : list DiffResultElement) : Page := {|
  editors := editors p;
  title_inputs := title_inputs p;
  primary := primary p;
  diff_view_mode := diff_view_mode p;
  diff_language := diff_language p;
  format_language := format_language p;
  sql_dialect := sql_dialect p;
  diff_output_container := c;
  status_bar := status_bar p |}.

(** The status bar after [showStatus(message, type)]. *)
Definition showStatus (p : Page) (message type : jsstring) : Page := {|
  editors := editors p;
  title_inputs := title_inputs p;
  primary := primary p;
  diff_view_mode := diff_view_mode p;
  diff_language := diff_language p;
  format_language := format_language p;
  sql_dialect := sql_dialect p;
  diff_output_container := diff_output_container p;
  status_bar := Some {| message := message; type := type |} |}.

Definition getDiffEditorTitle (p : Page) (key : Key) : jsstring :=
  match title_input p key with
  | Some value =>
      if truthy (trim value) then trim value else js "Editor " ++ key_name key
  | None => js "Editor " ++ key_name key
  end.

(** What the browser serializes for a text node: [div.textContent = str;
    return div.innerHTML]. *)
Definition escapeHtml (str : jsstring) : jsstring :=
  flat_map
    (fun c =>
       if N.eqb c 38 then js "&amp;"
       else if N.eqb c 60 then js "&lt;"
       else if N.eqb c 62 then js "&gt;"
       else if N.eqb c 160 then js "&nbsp;"
       else [c])
    str.

Definition handleFormat (rt : Runtime) (p : Page) : Page :=
  let language := format_language p in
  let code := getEditorContent (formatInput (editors p)) in
  let sqlDialect := sql_dialect p in
  match formatCode rt code language {| sqlDialect := Some sqlDialect |} with
  | Ok formatted =>
      showStatus (setFormatOutput p formatted)
        (js "Formatted " ++ toUpperCase rt language ++ js " successfully")
        (js "success")
  | Throw err_message => showStatus p err_message (js "error")
  end.

Definition allKeys : list Key := [A; B; C].

(** [getEditorContent(getDiffEditor(k)).trim()] as a condition. *)
Definition has_content (p : Page) (k : Key) : bool :=
  truthy (trim (getDiffEditorContent p k)).

(** The loop that formats the editors with content; a failure of
    [formatCode] is caught and the editor keeps its document. *)
Fixpoint format_editors (rt : Runtime) (language : jsstring)
    (keysWithContent : list Key) (p : Page) : Page :=
  match keysWithContent with
  | [] => p
  | key :: rest =>
      let raw := getDiffEditorContent p key in
      format_editors rt language rest
        match formatCode rt raw language no_options with
        | Ok formatted => setDiffEditorContent p key formatted
        | Throw _ => p
        end
  end.

Definition diff_result_header_html (baseTitle otherTitle : jsstring) : jsstring :=
  js "<span class=" ++ dquote ++ js "base-name" ++ dquote ++ js ">"
  ++ escapeHtml baseTitle ++ js "</span> vs " ++ escapeHtml otherTitle.

(** The loop over the other editors: each pass appends a result element to
    the container and renders into its body; the flag starts as [true].
    What [computeAndRenderDiff] throws leaves the loop. *)
Fixpoint diff_editors (rt : Runtime) (baseContent baseTitle viewMode language : jsstring)
    (othersWithContent : list Key) (allIdentical : bool) (p : Page)
    : Page * result bool :=
  match othersWithContent with
  | [] => (p, Ok allIdentical)
  | otherKey :: rest =>
      let otherContent := getDiffEditorContent p otherKey in
      let otherTitle := getDiffEditorTitle p otherKey in
      let rendered :=
        computeAndRenderDiff rt baseContent otherContent
          {| targetEl := Some [];
             viewMode := Some viewMode;
             fileName := Some (js "file." ++ language);
             baseLabel := Some baseTitle;
             otherLabel := Some otherTitle |} in
      let p' :=
        with_container p
          (diff_output_container p ++
             [{| diff_result_header := diff_result_header_html baseTitle otherTitle;
                 diff_result_body := default_to (fst rendered) [] |}]) in
      match snd rendered with
      | Throw err_message => (p', Throw err_message)
      | Ok result =>
          diff_editors rt baseContent baseTitle viewMode language rest
            (if negb (identical result) then false else allIdentical) p'
      end
  end.

Definition nothing_to_compare_message : jsstring :=
  js "Enter content in at least two editors".
Definition base_empty_message : jsstring := js "Base editor is empty".
Definition insufficient_input_message : jsstring :=
  js "Enter content in at least one other editor".
Definition no_differences_message : jsstring := js "No differences found".

(** [`Diff computed — ${n} comparison${n > 1 ? 's' : ''}`] *)
Definition diff_computed_message (n : nat) : jsstring :=
  js "Diff computed " ++ [8212%N] ++ js " " ++ decimal n ++ js " comparison"
  ++ (if Nat.ltb 1 n then js "s" else []).

Definition handleDiff (rt : Runtime) (page : Page) : Page :=
  let baseKey := primary page in
  let viewMode := diff_view_mode page in
  let language := diff_language page in
  let p := with_container page [] in
  let keysWithContent := filter (has_content p) allKeys in
  let otherKeys := filter (fun k => negb (key_eqb k baseKey)) allKeys in
  let othersWithContent := filter (has_content p) otherKeys in
  if negb (has_content p baseKey) && Nat.eqb (length othersWithContent) 0 then
    showStatus p nothing_to_compare_message (js "error")
  else if negb (has_content p baseKey) then
    showStatus p base_empty_message (js "error")
  else if Nat.eqb (length othersWithContent) 0 then
    showStatus p insufficient_input_message (js "error")
  else
    let p1 := format_editors rt language keysWithContent p in
    let baseContent := getDiffEditorContent p1 baseKey in
    let baseTitle := getDiffEditorTitle p1 baseKey in
    match
      diff_editors rt baseContent baseTitle viewMode language othersWithContent true p1
    with
    | (p2, Ok allIdentical) =>
        if allIdentical then showStatus p2 no_differences_message (js "success")
        else showStatus p2 (diff_computed_message (length othersWithContent)) (js "success")
    | (p2, Throw err_message) => showStatus p2 err_message (js "error")
    end.

(** [`Contents cycled A→B→C→A`] *)
Definition contents_cycled_message : jsstring :=
  js "Contents cycled A" ++ [8594%N] ++ js "B" ++ [8594%N] ++ js "C"
  ++ [8594%N] ++ js "A".

Definition handleCycle (p : Page) : Page :=
  let contents :=
    (getDiffEditorContent p A, getDiffEditorContent p B, getDiffEditorContent p C) in
  let titles :=
    (default_to (titleA (title_inputs p)) [],
     default_to (titleB (title_inputs p)) [],
     default_to (titleC (title_inputs p)) []) in
  let '(contents0, contents1, contents2) := contents in
  let '(titles0, titles1, titles2) := titles in
  let p1 := setDiffEditorContent p A contents2 in
  let p2 := setDiffEditorContent p1 B contents0 in
  let p3 := setDiffEditorContent p2 C contents1 in
  let t := title_inputs p3 in
  let p4 :=
    with_title_inputs p3
      {| titleA := match titleA t with Some _ => Some titles2 | None => None end;
         titleB := match titleB t with Some _ => Some titles0 | None => None end;
         titleC := match titleC t with Some _ => Some titles1 | None => None end |} in
  showStatus p4 contents_cycled_message (js "success").

(** ** Auxiliary definitions used in the proofs *)

(** The middle of the Python clean-up: split into lines, strip each line,
    join again. *)
Definition strip_lines (s : jsstring) : jsstring :=
  join_with LF (map (rstrip_by is_space) (split_on LF s)).

Definition first_line (s : jsstring) : jsstring := hd [] (split_on LF s).

(** What [join_with] puts after the first line. *)
Definition join_rest (ls : list jsstring) : jsstring :=
  match ls with
  | [] => []
  | _ :: _ => LF :: join_with LF ls
  end.

(** A one-pass reading of [replace_nl_runs]: [k] line feeds of the current
    run have been kept, and a run keeps at most three. *)
Fixpoint squeeze (k : nat) (s : jsstring) : jsstring :=
  match s with
  | [] => []
  | c :: r =>
      if is_nl c then
        if Nat.ltb k 3 then c :: squeeze (S k) r else squeeze k r
      else c :: squeeze 0 r
  end.

(** No run of line feeds is longer than three, [k] of them being before
    the string. *)
Fixpoint runs_ok (k : nat) (s : jsstring) : Prop :=
  match s with
  | [] => True
  | c :: r => if is_nl c then k < 3 /\ runs_ok (S k) r else runs_ok 0 r
  end.

(** The string starts with a character that is not a line feed. *)
Definition starts_inside_line (s : jsstring) : Prop :=
  match s with
  | [] => False
  | d :: _ => is_nl d = false
  end.

(** No line ends with a white space character. *)
Fixpoint no_trailing_space (s : jsstring) : Prop :=
  match s with
  | [] => True
  | c :: r =>
      (is_space c = true -> is_nl c = false -> starts_inside_line r)
      /\ no_trailing_space r
  end.


(** The editors the diff handler compares the base with. *)
Definition otherKeys (p : Page) : list Key :=
  filter (fun k => negb (key_eqb k (primary p))) allKeys.

Definition othersWithContent (p : Page) : list Key :=
  filter (has_content p) (otherKeys p).

(** The document of an editor after the formatting pass: the one made from
    the formatted text when the editor had content and [formatCode]
    returned, its old document otherwise. *)
Definition formatted_document (rt : Runtime) (p : Page) (k : Key) : jsstring :=
  if has_content p k then
    match formatCode rt (getDiffEditorContent p k) (diff_language p) no_options with
    | Ok formatted => setEditorContent (getDiffEditor p k) formatted
    | Throw _ => getDiffEditor p k
    end
  else getDiffEditor p k.

(** What is read from an editor after the formatting pass: the formatted
    text with its line breaks as LF when the editor had content and
    [formatCode] returned, what was read before otherwise. *)
Definition formatted_content (rt : Runtime) (p : Page) (k : Key) : jsstring :=
  if has_content p k then
    match formatCode rt (getDiffEditorContent p k) (diff_language p) no_options with
    | Ok formatted => normalize_line_breaks formatted
    | Throw _ => getDiffEditorContent p k
    end
  else getDiffEditorContent p k.

Definition preformatted (rt : Runtime) (p : Page) : Page :=
  with_editors p
    {| formatInput := formatInput (editors p);
       formatOutput := formatOutput (editors p);
       diffA := formatted_document rt p A;
       diffB := formatted_document rt p B;
       diffC := formatted_document rt p C |}.

(** The options [handleDiff] gives [computeAndRenderDiff] for one pair. *)
Definition pair_options (p : Page) (otherKey : Key) : DiffOptions := {|
  targetEl := Some [];
  viewMode := Some (diff_view_mode p);
  fileName := Some (js "file." ++ diff_language p);
  baseLabel := Some (getDiffEditorTitle p (primary p));
  otherLabel := Some (getDiffEditorTitle p otherKey) |}.

(** The [DiffResult] of the base against one other editor, on the contents
    the formatting pass leaves. *)
Definition pair_result (rt : Runtime) (p : Page) (otherKey : Key) : result DiffResult :=
  snd (computeAndRenderDiff rt
         (formatted_content rt p (primary p)) (formatted_content rt p otherKey)
         (pair_options p otherKey)).

(** What one pass of the comparison loop gets from [computeAndRenderDiff]. *)
Definition loop_outcome (rt : Runtime) (baseContent baseTitle mode lang : jsstring)
    (p : Page) (otherKey : Key) : result DiffResult :=
  snd (computeAndRenderDiff rt baseContent (getDiffEditorContent p otherKey)
         {| targetEl := Some [];
            viewMode := Some mode;
            fileName := Some (js "file." ++ lang);
            baseLabel := Some baseTitle;
            otherLabel := Some (getDiffEditorTitle p otherKey) |}).

Definition collected_results (rt : Runtime) (p : Page) : list (result DiffResult) :=
  map (pair_result rt p) (othersWithContent p).

Definition returned {T : Type} (r : result T) : bool :=
  match r with Ok _ => true | Throw _ => false end.

Definition is_identical (r : result DiffResult) : bool :=
  match r with Ok d => identical d | Throw _ => false end.

(** The message of the first call that throws. *)
Fixpoint first_throw {T : Type} (rs : list (result T)) : option jsstring :=
  match rs with
  | [] => None
  | Ok _ :: rest => first_throw rest
  | Throw m :: _ => Some m
  end.

(** Number of calls made up to and with the first that throws. *)
Fixpoint attempts {T : Type} (rs : list (result T)) : nat :=
  match rs with
  | [] => 0
  | Ok _ :: rest => S (attempts rest)
  | Throw _ :: _ => 1
  end.

Definition success (m : jsstring) : option Status :=
  Some {| message := m; type := js "success" |}.

Definition error (m : jsstring) : option Status :=
  Some {| message := m; type := js "error" |}.

(** What the status bar shows after the comparisons. *)
Definition verdict (rt : Runtime) (p : Page) : option Status :=
  match first_throw (collected_results rt p) with
  | Some m => error m
  | None =>
      if forallb is_identical (collected_results rt p)
      then success no_differences_message
      else success (diff_computed_message (length (othersWithContent p)))
  end.


(** The options [formatSQL] builds for the generic dialect. *)
Definition generic_sql_options : SqlFormatOptions := {|
  language := SqlDialect (js "sql");
  indent := js "  ";
  uppercase := true;
  linesBetweenQueries := 2%N |}.

Definition with_sql_dialect (p : Page) (dialect : jsstring) : Page := {|
  editors := editors p;
  title_inputs := title_inputs p;
  primary := primary p;
  diff_view_mode := diff_view_mode p;
  diff_language := diff_language p;
  format_language := format_language p;
  sql_dialect := dialect;
  diff_output_container := diff_output_container p;
  status_bar := status_bar p |}.

Definition with_language (p : Page) (language : jsstring) : Page := {|
  editors := editors p;
  title_inputs := title_inputs p;
  primary := primary p;
  diff_view_mode := diff_view_mode p;
  diff_language := language;
  format_language := format_language p;
  sql_dialect := sql_dialect p;
  diff_output_container := diff_output_container p;
  status_bar := status_bar p |}.

Definition with_targetEl (o : DiffOptions) (el : jsstring) : DiffOptions := {|
  targetEl := Some el;
  viewMode := viewMode o;
  fileName := fileName o;
  baseLabel := baseLabel o;
  otherLabel := otherLabel o |}.

Definition swap_labels (o : DiffOptions) : DiffOptions := {|
  targetEl := targetEl o;
  viewMode := viewMode o;
  fileName := fileName o;
  baseLabel := otherLabel o;
  otherLabel := baseLabel o |}.

(** The page with the three diff editors and their title inputs holding the
    given content and title pairs. *)
Definition with_buffers (p : Page) (a b c : jsstring * jsstring) : Page :=
  with_title_inputs
    (with_editors p
       {| formatInput := formatInput (editors p);
          formatOutput := formatOutput (editors p);
          diffA := setEditorContent (diffA (editors p)) (fst a);
          diffB := setEditorContent (diffB (editors p)) (fst b);
          diffC := setEditorContent (diffC (editors p)) (fst c) |})
    {| titleA := Some (snd a); titleB := Some (snd b); titleC := Some (snd c) |}.

(** Number of editors, the base among them, that have content. *)
Definition count_with_content (p : Page) : nat :=
  length (filter (has_content p) allKeys).

(** ** Sample runtimes and pages *)

(** The values of a [JSON] object that reads four texts only: the three
    literal names and the number [1e999], which is beyond the range of a
    double and is read as [Infinity]. *)
Inductive JSONLiteral : Type :=
| JSON_null
| JSON_true
| JSON_false
| JSON_Infinity.

(** White space of the JSON grammar. *)
Definition is_json_space (c : char) : bool :=
  N.eqb c SP || N.eqb c TAB || N.eqb c LF || N.eqb c CR.

(** [JSON.parse] skips white space around the value; [JSON.stringify]
    writes a number that is not finite as [null]. *)
Definition literal_JSON : JSONObject := {|
  JSONValue := JSONLiteral;
  JSON_parse := fun text =>
    let value := rstrip_by is_json_space (lstrip_by is_json_space text) in
    if eqb value (js "null") then Ok JSON_null
    else if eqb value (js "true") then Ok JSON_true
    else if eqb value (js "false") then Ok JSON_false
    else if eqb value (js "1e999") then Ok JSON_Infinity
    else Throw (js "Unexpected token");
  JSON_stringify := fun value _ =>
    match value with
    | JSON_null | JSON_Infinity => js "null"
    | JSON_true => js "true"
    | JSON_false => js "false"
    end |}.

Definition no_diff_options : DiffOptions := {|
  targetEl := None; viewMode := None; fileName := None;
  baseLabel := None; otherLabel := None |}.

(** The page with no library loaded. *)
Definition offline : Runtime := {|
  window := fun _ => None;
  prettier := None;
  prettierPlugins := None;
  JSON := literal_JSON;
  toUpperCase := map (fun c => if N.leb 97 c && N.leb c 122 then N.sub c 32 else c);
  sqlFormatter := None;
  Diff := None;
  Diff2HtmlUI := None;
  data_theme := None |}.

(** The diff libraries loaded, as stand-ins that show their arguments. *)
Definition with_diff_libraries : Runtime := {|
  window := fun _ => None;
  prettier := None;
  prettierPlugins := None;
  JSON := literal_JSON;
  toUpperCase := toUpperCase offline;
  sqlFormatter := None;
  Diff := Some (fun oldName newName oldStr newStr _ _ _ =>
                  js "--- " ++ oldName ++ [LF] ++ js "+++ " ++ newName ++ [LF]
                  ++ oldStr ++ newStr);
  Diff2HtmlUI := Some (fun unifiedDiff _ => unifiedDiff);
  data_theme := Some (js "light") |}.


(** sql-formatter loaded, as a stand-in that shows the dialect it is given. *)
Definition with_sql_formatter : Runtime := {|
  window := fun _ => None;
  prettier := None;
  prettierPlugins := None;
  JSON := literal_JSON;
  toUpperCase := toUpperCase offline;
  sqlFormatter :=
    Some (fun code options =>
            match language options with
            | SqlDialect name => Ok (js "-- " ++ name ++ [LF] ++ code)
            | SqlInherited _ => Throw (js "Unsupported SQL dialect")
            end);
  Diff := None;
  Diff2HtmlUI := None;
  data_theme := None |}.

(** The diff libraries and a formatter that writes a carriage return: a
    stand-in for sql-formatter that ends its text with CR for the text [p]
    and with LF for any other. *)
Definition with_cr_formatter : Runtime := {|
  window := fun _ => None;
  prettier := None;
  prettierPlugins := None;
  JSON := literal_JSON;
  toUpperCase := toUpperCase offline;
  sqlFormatter :=
    Some (fun code _ =>
            if eqb code (js "p") then Ok (js "x" ++ [CR]) else Ok (js "x" ++ [LF]));
  Diff := Diff with_diff_libraries;
  Diff2HtmlUI := Diff2HtmlUI with_diff_libraries;
  data_theme := Some (js "light") |}.

(** js-beautify loaded, as a stand-in that tells whether it was asked to
    indent inner html. *)
Definition with_beautify_probe : Runtime := {|
  window := fun name =>
    if eqb name (js "html_beautify") then
      Some (GlobalObject
              (Some (fun _ options =>
                       match indent_inner_html options with
                       | Some true => Ok (js "indent_inner_html")
                       | _ => Ok (js "default")
                       end)))
    else None;
  prettier := None;
  prettierPlugins := None;
  JSON := literal_JSON;
  toUpperCase := toUpperCase offline;
  sqlFormatter := None;
  Diff := None;
  Diff2HtmlUI := None;
  data_theme := None |}.

(** A page for the examples: empty editors and titles, [A] the base. *)
Definition sample_page : Page := {|
  editors := {| formatInput := []; formatOutput := [];
                diffA := []; diffB := []; diffC := [] |};
  title_inputs := {| titleA := Some []; titleB := Some []; titleC := Some [] |};
  primary := A;
  diff_view_mode := js "line-by-line";
  diff_language := js "python";
  format_language := js "json";
  sql_dialect := js "sql";
  diff_output_container := [];
  status_bar := None |}.

(** The diff editors filled in, titles left empty. *)
Definition page_with (a b c : jsstring) : Page :=
  with_editors sample_page
    {| formatInput := []; formatOutput := [];
       diffA := a; diffB := b; diffC := c |}.

(** ** app.js: the other handlers of the diff and format panels *)

Definition with_primary (p : Page) (key : Key) : Page := {|
  editors := editors p;
  title_inputs := title_inputs p;
  primary := key;
  diff_view_mode := diff_view_mode p;
  diff_language := diff_language p;
  format_language := format_language p;
  sql_dialect := sql_dialect p;
  diff_output_container := diff_output_container p;
  status_bar := status_bar p |}.

(** [diffState.primary = key]; the radio button and the [is-primary] class
    of the panes, which the function also sets, show the same key. *)
Definition setDiffPrimary (p : Page) (key : Key) : Page := with_primary p key.

Definition editors_cleared_message : jsstring := js "Editors cleared".

Definition handleFormatClear (p : Page) : Page :=
  let e := editors p in
  showStatus
    (with_editors p
       {| formatInput := setEditorContent (formatInput e) [];
          formatOutput := setEditorContent (formatOutput e) [];
          diffA := diffA e; diffB := diffB e; diffC := diffC e |})
    editors_cleared_message (js "success").

(** [if (input) input.value = ''] *)
Definition clear_title (input : option jsstring) : option jsstring :=
  match input with Some _ => Some [] | None => None end.

Definition handleDiffClear (p : Page) : Page :=
  let p1 := setDiffEditorContent p A [] in
  let p1 := with_title_inputs p1
              {| titleA := clear_title (titleA (title_inputs p1));
                 titleB := titleB (title_inputs p1);
                 titleC := titleC (title_inputs p1) |} in
  let p2 := setDiffEditorContent p1 B [] in
  let p2 := with_title_inputs p2
              {| titleA := titleA (title_inputs p2);
                 titleB := clear_title (titleB (title_inputs p2));
                 titleC := titleC (title_inputs p2) |} in
  let p3 := setDiffEditorContent p2 C [] in
  let p3 := with_title_inputs p3
              {| titleA := titleA (title_inputs p3);
                 titleB := titleB (title_inputs p3);
                 titleC := clear_title (titleC (title_inputs p3)) |} in
  let p4 := with_container p3 [] in
  let p5 := setDiffPrimary p4 A in
  showStatus p5 editors_cleared_message (js "success").

(** ** app.js: the theme *)

(** The [data-theme] attribute of the document, the [codetools-theme] item
    of the local storage, and for each editor whether its theme compartment
    holds the dark theme. *)
Record ThemeState : Type := {
  theme_attribute : option jsstring;
  theme_storage : option jsstring;
  editor_dark : list bool }.

Definition getTheme (st : ThemeState) : jsstring :=
  or_else (theme_storage st) (js "light").

Definition setTheme (theme : jsstring) (st : ThemeState) : ThemeState :=
  let isDark := eqb theme (js "dark") in
  {| theme_attribute := Some theme;
     theme_storage := Some theme;
     editor_dark := map (fun _ => isDark) (editor_dark st) |}.

Definition toggleTheme (st : ThemeState) : ThemeState :=
  let current := theme_attribute st in
  setTheme
    (match current with
     | Some t => if eqb t (js "dark") then js "light" else js "dark"
     | None => js "dark"
     end)
    st.

(** The theme part of [init], on a page load with the given stored item:
    the attribute is set, the five editors are created with the theme the
    attribute asks for, and are set to dark when the saved theme is dark. *)
Definition init_theme (storage : option jsstring) : ThemeState :=
  let st0 := {| theme_attribute := None; theme_storage := storage;
                editor_dark := [] |} in
  let savedTheme := getTheme st0 in
  let isDark := eqb savedTheme (js "dark") in
  let created := [isDark; isDark; isDark; isDark; isDark] in
  {| theme_attribute := Some savedTheme;
     theme_storage := storage;
     editor_dark := if eqb savedTheme (js "dark")
                    then map (fun _ => true) created else created |}.

(** ** The two-pane version of app.js *)

Module TwoPane.

Record Editors : Type := {
  formatInput : jsstring;
  formatOutput : jsstring;
  diffOriginal : jsstring;
  diffModified : jsstring }.

Record Page : Type := {
  editors : Editors;
  diff_view_mode : jsstring;
  diff_language : jsstring;
  format_language : jsstring;
  sql_dialect : jsstring;
  (** [innerHTML] of the [diff-output] element *)
  diff_output : jsstring;
  status_bar : option Status }.

Definition with_editors (p : Page) (e : Editors) : Page := {|
  editors := e;
  diff_view_mode := diff_view_mode p;
  diff_language := diff_language p;
  format_language := format_language p;
  sql_dialect := sql_dialect p;
  diff_output := diff_output p;
  status_bar := status_bar p |}.

Definition with_diff_output (p : Page) (html : jsstring) : Page := {|
  editors := editors p;
  diff_view_mode := diff_view_mode p;
  diff_language := diff_language p;
  format_language := format_language p;
  sql_dialect := sql_dialect p;
  diff_output := html;
  status_bar := status_bar p |}.

Definition showStatus (p : Page) (message type : jsstring) : Page := {|
  editors := editors p;
  diff_view_mode := diff_view_mode p;
  diff_language := diff_language p;
  format_language := format_language p;
  sql_dialect := sql_dialect p;
  diff_output := diff_output p;
  status_bar := Some {| message := message; type := type |} |}.

Definition diff_computed_successfully_message : jsstring :=
  js "Diff computed successfully".

Definition handleDiff (rt : Runtime) (p : Page) : Page :=
  let original := getEditorContent (diffOriginal (editors p)) in
  let modified := getEditorContent (diffModified (editors p)) in
  let viewMode := diff_view_mode p in
  let language := diff_language p in
  let rendered :=
    computeAndRenderDiff rt original modified
      {| targetEl := Some (diff_output p);
         viewMode := Some viewMode;
         fileName := Some (js "file." ++ language);
         baseLabel := None;
         otherLabel := None |} in
  let p' := with_diff_output p (default_to (fst rendered) (diff_output p)) in
  match snd rendered with
  | Ok result =>
      if identical result then showStatus p' no_differences_message (js "success")
      else showStatus p' diff_computed_successfully_message (js "success")
  | Throw err_message => showStatus p' err_message (js "error")
  end.

Definition panels_swapped_message : jsstring := js "Panels swapped".

Definition handleSwap (p : Page) : Page :=
  let original := getEditorContent (diffOriginal (editors p)) in
  let modified := getEditorContent (diffModified (editors p)) in
  let e := editors p in
  let p1 := with_editors p
              {| formatInput := formatInput e; formatOutput := formatOutput e;
                 diffOriginal := setEditorContent (diffOriginal e) modified;
                 diffModified := diffModified e |} in
  let e1 := editors p1 in
  let p2 := with_editors p1
              {| formatInput := formatInput e1; formatOutput := formatOutput e1;
                 diffOriginal := diffOriginal e1;
                 diffModified := setEditorContent (diffModified e1) original |} in
  showStatus p2 panels_swapped_message (js "success").

Definition handleDiffClear (p : Page) : Page :=
  let e := editors p in
  showStatus
    (with_diff_output
       (with_editors p
          {| formatInput := formatInput e; formatOutput := formatOutput e;
             diffOriginal := setEditorContent (diffOriginal e) [];
             diffModified := setEditorContent (diffModified e) [] |})
       [])
    editors_cleared_message (js "success").

End TwoPane.

(** ** Auxiliary definitions for the further properties *)

(** The characters that are not white space, in order. *)
Definition nonspace (s : jsstring) : jsstring :=
  filter (fun c => negb (is_space c)) s.

Definition four_line_feeds : jsstring := [LF; LF; LF; LF].

(** What [computeAndRenderDiff] gives jsdiff for a text. *)
Definition with_final_nl (s : jsstring) : jsstring :=
  if endsWith_nl s then s else s ++ [LF].

(** The configuration [computeAndRenderDiff] gives diff2html. *)
Definition diff2html_configuration (rt : Runtime) (o : DiffOptions) : Diff2HtmlConfig := {|
  drawFileList := false;
  matching := js "lines";
  outputFormat := default_to (viewMode o) (js "line-by-line");
  highlight := true;
  colorScheme :=
    match data_theme rt with
    | Some t => if eqb t (js "dark") then js "dark" else js "light"
    | None => js "light"
    end |}.

(** The replacement of one character by [escapeHtml]. *)
Definition escape_char (c : char) : jsstring :=
  if N.eqb c 38 then js "&amp;"
  else if N.eqb c 60 then js "&lt;"
  else if N.eqb c 62 then js "&gt;"
  else if N.eqb c 160 then js "&nbsp;"
  else [c].

(** The result element [handleDiff] appends for one other editor. *)
Definition pair_element (rt : Runtime) (p : Page) (otherKey : Key) : DiffResultElement := {|
  diff_result_header :=
    diff_result_header_html (getDiffEditorTitle p (primary p))
      (getDiffEditorTitle p otherKey);
  diff_result_body :=
    default_to
      (fst (computeAndRenderDiff rt
              (formatted_content rt p (primary p)) (formatted_content rt p otherKey)
              (pair_options p otherKey)))
      [] |}.

(** The result element one pass of the comparison loop appends. *)
Definition loop_element (rt : Runtime) (baseContent baseTitle mode lang : jsstring)
    (p : Page) (otherKey : Key) : DiffResultElement := {|
  diff_result_header :=
    diff_result_header_html baseTitle (getDiffEditorTitle p otherKey);
  diff_result_body :=
    default_to
      (fst (computeAndRenderDiff rt baseContent (getDiffEditorContent p otherKey)
              {| targetEl := Some [];
                 viewMode := Some mode;
                 fileName := Some (js "file." ++ lang);
                 baseLabel := Some baseTitle;
                 otherLabel := Some (getDiffEditorTitle p otherKey) |}))
      [] |}.

(** The editors [handleDiff] gets to compare: all those with content, up
    to and with the first whose comparison throws. *)
Definition compared_keys (rt : Runtime) (p : Page) : list Key :=
  firstn (attempts (collected_results rt p)) (othersWithContent p).

(** The page after a run of [handleDiff] that passes validation. *)
Definition compared_page (rt : Runtime) (p : Page) : Page := {|
  editors := editors (preformatted rt p);
  title_inputs := title_inputs p;
  primary := primary p;
  diff_view_mode := diff_view_mode p;
  diff_language := diff_language p;
  format_language := format_language p;
  sql_dialect := sql_dialect p;
  diff_output_container := map (pair_element rt p) (compared_keys rt p);
  status_bar := verdict rt p |}.

(** The condition under which [handleDiff] compares. *)
Definition session_valid (p : Page) : bool :=
  has_content p (primary p) && existsb (has_content p) (otherKeys p).

(** The message of the validation failure, if any. *)
Definition validation_failure (p : Page) : option jsstring :=
  if negb (has_content p (primary p)) && negb (existsb (has_content p) (otherKeys p))
  then Some nothing_to_compare_message
  else if negb (has_content p (primary p)) then Some base_empty_message
  else if negb (existsb (has_content p) (otherKeys p))
  then Some insufficient_input_message
  else None.

(** The options [formatSQL] builds around the language it looked up. *)
Definition sql_options (l : SqlLanguage) : SqlFormatOptions := {|
  language := l;
  indent := js "  ";
  uppercase := true;
  linesBetweenQueries := 2%N |}.

(** The seven language tags of the [switch] in [formatCode]. *)
Definition supported_languages : list jsstring :=
  [js "javascript"; js "json"; js "html"; js "css"; js "sql"; js "xml";
   js "python"].

Definition with_window (rt : Runtime) (w : jsstring -> option BeautifyGlobal) : Runtime := {|
  window := w;
  prettier := prettier rt;
  prettierPlugins := prettierPlugins rt;
  JSON := JSON rt;
  toUpperCase := toUpperCase rt;
  sqlFormatter := sqlFormatter rt;
  Diff := Diff rt;
  Diff2HtmlUI := Diff2HtmlUI rt;
  data_theme := data_theme rt |}.

(** * Proofs *)

(** ** Strings *)

Lemma eqb_eq (a b : jsstring) : eqb a b = true <-> a = b.
Proof.
  revert b; induction a as [|x a IH]; intros [|y b]; simpl; split;
    try congruence; try reflexivity.
  - rewrite andb_true_iff, N.eqb_eq, IH. intros [-> ->]. reflexivity.
  - intros E. injection E as -> ->. rewrite N.eqb_refl. simpl. apply IH. reflexivity.
Qed.

Lemma eqb_refl (a : jsstring) : eqb a a = true.
Proof. apply eqb_eq. reflexivity. Qed.

Lemma eqb_sym (a b : jsstring) : eqb a b = eqb b a.
Proof.
  destruct (eqb a b) eqn:E1, (eqb b a) eqn:E2; try reflexivity.
  - apply eqb_eq in E1. subst. rewrite eqb_refl in E2. discriminate.
  - apply eqb_eq in E2. subst. rewrite eqb_refl in E1. discriminate.
Qed.

Lemma eqb_neq (a b : jsstring) : eqb a b = false <-> a <> b.
Proof.
  split.
  - intros E H. apply eqb_eq in H. congruence.
  - intros H. destruct (eqb a b) eqn:E; [|reflexivity].
    apply eqb_eq in E. contradiction.
Qed.

(** Decides the comparisons of two string literals in the goal, such as
    those of the [switch] of [formatCode]. *)
Ltac compare_literals :=
  repeat match goal with
         | |- context [eqb (js ?a) (js ?b)] =>
             let v := eval vm_compute in (eqb (js a) (js b)) in
             change (eqb (js a) (js b)) with v
         end;
  cbv iota.

Lemma truthy_false (s : jsstring) : truthy s = false <-> s = [].
Proof. destruct s; simpl; split; congruence. Qed.

Lemma rstrip_by_cons p c r :
  rstrip_by p (c :: r) =
  match rstrip_by p r with
  | [] => if p c then [] else [c]
  | _ :: _ => c :: rstrip_by p r
  end.
Proof. simpl. destruct (rstrip_by p r); reflexivity. Qed.

Lemma rstrip_by_keep p c r :
  p c = false \/ rstrip_by p r <> [] ->
  rstrip_by p (c :: r) = c :: rstrip_by p r.
Proof.
  intros H. rewrite rstrip_by_cons.
  destruct (rstrip_by p r) eqn:E; [|reflexivity].
  destruct H as [-> | H]; [reflexivity | contradiction].
Qed.

Lemma rstrip_by_In p x s : In x (rstrip_by p s) -> In x s.
Proof.
  induction s as [|c r IH]; [intros []|].
  rewrite rstrip_by_cons.
  destruct (rstrip_by p r) eqn:E.
  - destruct (p c); simpl; tauto.
  - simpl. simpl in IH. tauto.
Qed.

Lemma rstrip_by_snoc p s c : p c = true -> rstrip_by p (s ++ [c]) = rstrip_by p s.
Proof.
  intros Hc. induction s as [|d r IH].
  - simpl. rewrite Hc. reflexivity.
  - simpl app. rewrite !rstrip_by_cons, IH. reflexivity.
Qed.

Lemma rstrip_by_idem p s : rstrip_by p (rstrip_by p s) = rstrip_by p s.
Proof.
  induction s as [|c r IH]; [reflexivity|].
  rewrite rstrip_by_cons.
  destruct (rstrip_by p r) as [|x l] eqn:E.
  - destruct (p c) eqn:Hc; [reflexivity|].
    simpl. rewrite Hc. reflexivity.
  - rewrite rstrip_by_keep; [rewrite IH; reflexivity|].
    right. rewrite IH. discriminate.
Qed.

(** The stripped string followed by the stripped suffix is the string. *)
Lemma rstrip_by_spec p s :
  exists w, s = rstrip_by p s ++ w /\ forallb p w = true.
Proof.
  induction s as [|c r (w & E & Hw)].
  - exists []. split; reflexivity.
  - rewrite rstrip_by_cons. destruct (rstrip_by p r) as [|x l] eqn:Er.
    + destruct (p c) eqn:Hc.
      * exists (c :: w). simpl in *. rewrite Hc, Hw, E at 1. split; reflexivity.
      * exists w. simpl in *. split; [congruence | assumption].
    + exists w. split; [|assumption]. simpl. f_equal. exact E.
Qed.

Lemma rstrip_by_last p s :
  forall l c, rstrip_by p s = l ++ [c] -> p c = false.
Proof.
  induction s as [|d r IH]; intros l c.
  - destruct l; discriminate.
  - rewrite rstrip_by_cons. destruct (rstrip_by p r) as [|y t] eqn:Er.
    + destruct (p d) eqn:Hd.
      * destruct l; discriminate.
      * destruct l as [|? [|]]; simpl; intros E; try discriminate.
        injection E as <-. exact Hd.
    + destruct l as [|z l]; simpl; intros E.
      * discriminate.
      * injection E as _ E. apply (IH l c E).
Qed.

(** The two regular expressions that strip a suffix, on small inputs. *)
Example rstrip_by_space_example :
  rstrip_by is_space (js "  a b " ++ [TAB; 160%N]) = js "  a b".
Proof. reflexivity. Qed.

Example replace_trailing_nl_example :
  replace_trailing_nl (js "a" ++ [LF; LF] ++ js "b" ++ [LF; LF; LF])
  = js "a" ++ [LF; LF] ++ js "b" ++ [LF]
  /\ replace_trailing_nl [] = [LF].
Proof. split; reflexivity. Qed.

(** ** The Python clean-up is idempotent *)

Example formatPython_example :
  formatPython (js "if x:" ++ [CR; LF; TAB] ++ js "y = 1  " ++ [CR]
                ++ [LF; LF; SP; LF; LF; LF] ++ js "z")
  = js "if x:" ++ [LF] ++ js "    y = 1" ++ [LF; LF; LF] ++ js "z" ++ [LF].
Proof. reflexivity. Qed.

Section PythonCleanup.

Lemma replace_crlf_id s : ~ In CR s -> replace_crlf s = s.
Proof.
  induction s as [|c t IH]; [reflexivity|].
  intros H. simpl. destruct t as [|d r]; [reflexivity|].
  assert (Hc : N.eqb c CR = false).
  { apply N.eqb_neq. intros ->. apply H. left. reflexivity. }
  rewrite Hc. simpl andb. cbv iota. f_equal. apply IH.
  intros Hin. apply H. right. exact Hin.
Qed.

Lemma replace_cr_id s : ~ In CR s -> replace_cr s = s.
Proof.
  induction s as [|c r IH]; [reflexivity|].
  intros H. simpl. rewrite IH by (intros Hin; apply H; right; exact Hin).
  destruct (N.eqb c CR) eqn:E; [|reflexivity].
  apply N.eqb_eq in E. subst. exfalso. apply H. left. reflexivity.
Qed.

Lemma replace_cr_no_cr s : ~ In CR (replace_cr s).
Proof.
  unfold replace_cr. rewrite in_map_iff. intros (c & E & _).
  destruct (N.eqb c CR) eqn:Hc.
  - discriminate.
  - apply N.eqb_neq in Hc. congruence.
Qed.

Lemma replace_tab_id s : ~ In TAB s -> replace_tab s = s.
Proof.
  induction s as [|c r IH]; [reflexivity|].
  intros H. simpl. rewrite IH by (intros Hin; apply H; right; exact Hin).
  destruct (N.eqb c TAB) eqn:E; [|reflexivity].
  apply N.eqb_eq in E. subst. exfalso. apply H. left. reflexivity.
Qed.

Lemma replace_tab_In x s :
  In x (replace_tab s) -> x <> TAB /\ (x = SP \/ In x s).
Proof.
  unfold replace_tab. rewrite in_flat_map. intros (c & Hc & Hx).
  destruct (N.eqb c TAB) eqn:E.
  - assert (x = SP) as -> by (simpl in Hx; intuition congruence).
    split; [discriminate | left; reflexivity].
  - apply N.eqb_neq in E. destruct Hx as [<- | []]. tauto.
Qed.

(** *** Lines *)

Lemma split_on_cons c r :
  split_on LF (c :: r) =
  if is_nl c then [] :: split_on LF r
  else (c :: first_line r) :: tl (split_on LF r).
Proof.
  unfold first_line, is_nl. simpl.
  destruct (N.eqb c LF); [reflexivity|].
  destruct (split_on LF r); reflexivity.
Qed.

Lemma split_on_first_rest s : split_on LF s = first_line s :: tl (split_on LF s).
Proof.
  unfold first_line. destruct s as [|c r]; [reflexivity|].
  simpl. destruct (N.eqb c LF); [reflexivity|].
  destruct (split_on LF r); reflexivity.
Qed.

Lemma first_line_no_nl s x : In x (first_line s) -> is_nl x = false.
Proof.
  induction s as [|c r IH]; [intros []|].
  unfold first_line. rewrite split_on_cons.
  destruct (is_nl c) eqn:E; simpl; [intros []|].
  intros [<- | H]; [exact E | apply IH, H].
Qed.

Lemma join_with_cons l ls : join_with LF (l :: ls) = l ++ join_rest ls.
Proof. destruct ls; simpl; [rewrite app_nil_r|]; reflexivity. Qed.

Lemma strip_lines_first_rest s :
  strip_lines s =
  rstrip_by is_space (first_line s)
  ++ join_rest (map (rstrip_by is_space) (tl (split_on LF s))).
Proof.
  unfold strip_lines. rewrite split_on_first_rest at 1.
  simpl map. apply join_with_cons.
Qed.

(** The clean-up of the lines, read from the left: a white space character
    goes when only white space follows it on its line. *)
Lemma strip_lines_cons c r :
  strip_lines (c :: r) =
  if is_nl c then LF :: strip_lines r
  else match rstrip_by is_space (first_line r) with
       | [] => if is_space c then strip_lines r else c :: strip_lines r
       | _ :: _ => c :: strip_lines r
       end.
Proof.
  destruct (is_nl c) eqn:E.
  - unfold strip_lines. rewrite split_on_cons, E.
    simpl map. rewrite join_with_cons.
    pose proof (split_on_first_rest r) as Hr.
    destruct (split_on LF r); [discriminate | reflexivity].
  - rewrite (strip_lines_first_rest r).
    unfold strip_lines. rewrite split_on_cons, E.
    simpl map. rewrite join_with_cons.
    destruct (rstrip_by is_space (first_line r)) eqn:Er; [|reflexivity].
    destruct (is_space c); reflexivity.
Qed.

Lemma strip_lines_In x s : In x (strip_lines s) -> In x s.
Proof.
  induction s as [|c r IH]; [intros []|].
  rewrite strip_lines_cons.
  destruct (is_nl c) eqn:E.
  - apply N.eqb_eq in E. subst c. simpl. tauto.
  - destruct (rstrip_by is_space (first_line r)); [destruct (is_space c)|];
      simpl; tauto.
Qed.

Lemma strip_lines_start r :
  rstrip_by is_space (first_line r) <> [] -> starts_inside_line (strip_lines r).
Proof.
  intros H. rewrite strip_lines_first_rest.
  destruct (rstrip_by is_space (first_line r)) as [|x l] eqn:E; [contradiction|].
  simpl. apply (first_line_no_nl r).
  apply (rstrip_by_In is_space). rewrite E. left. reflexivity.
Qed.

Lemma strip_lines_no_trailing_space s : no_trailing_space (strip_lines s).
Proof.
  induction s as [|c r IH]; [exact I|].
  rewrite strip_lines_cons.
  destruct (is_nl c) eqn:E.
  - split; [|exact IH]. intros _ H. discriminate.
  - destruct (rstrip_by is_space (first_line r)) as [|x l] eqn:Er.
    + destruct (is_space c) eqn:Hc; [exact IH|].
      split; [|exact IH]. intros H. congruence.
    + split; [|exact IH]. intros _ _.
      apply strip_lines_start. rewrite Er. discriminate.
Qed.

Lemma strip_lines_id s : no_trailing_space s -> strip_lines s = s.
Proof.
  induction s as [|c r IH]; [reflexivity|].
  intros [Hc Hr]. specialize (IH Hr).
  rewrite strip_lines_cons.
  destruct (is_nl c) eqn:E.
  - apply N.eqb_eq in E. subst c. rewrite IH. reflexivity.
  - destruct (rstrip_by is_space (first_line r)) as [|x l] eqn:Er;
      [|rewrite IH; reflexivity].
    destruct (is_space c) eqn:Hs; [|rewrite IH; reflexivity].
    exfalso. specialize (Hc eq_refl eq_refl).
    rewrite strip_lines_first_rest, Er in IH.
    destruct r as [|d r']; [exact Hc|]. simpl in Hc.
    destruct (tl (split_on LF (d :: r'))); simpl in IH; [discriminate|].
    injection IH as <- _. discriminate.
Qed.

(** *** Runs of line feeds *)

Lemma squeeze_full s : squeeze 3 s = squeeze 0 (lstrip_by is_nl s).
Proof.
  induction s as [|c r IH]; [reflexivity|].
  simpl. destruct (is_nl c) eqn:E; [exact IH|].
  simpl. rewrite E. reflexivity.
Qed.

Lemma squeeze_short k s : k + leading_nl s <= 3 -> squeeze k s = squeeze 0 s.
Proof.
  revert k. induction s as [|c r IH]; intros k H; [reflexivity|].
  simpl in *. destruct (is_nl c); [|reflexivity].
  destruct (Nat.ltb_spec k 3); [|lia].
  f_equal. rewrite (IH (S k)), (IH 1) by lia. reflexivity.
Qed.

Lemma replace_nl_runs_squeeze s : replace_nl_runs s = squeeze 0 s.
Proof.
  funelim (replace_nl_runs s); [reflexivity | |].
  - (* a run of four or more starts here *)
    match goal with IH : replace_nl_runs _ = squeeze 0 _ |- _ => rewrite IH end.
    apply Nat.leb_le in Heq.
    simpl in Heq. destruct (is_nl c) eqn:Ec; [|lia].
    destruct r as [|c1 r]; simpl in Heq; [lia|].
    destruct (is_nl c1) eqn:E1; [|lia].
    destruct r as [|c2 r]; simpl in Heq; [lia|].
    destruct (is_nl c2) eqn:E2; [|lia].
    apply N.eqb_eq in Ec, E1, E2. subst.
    change (is_nl LF) with true. simpl.
    rewrite squeeze_full. reflexivity.
  - match goal with IH : replace_nl_runs _ = squeeze 0 _ |- _ => rewrite IH end.
    apply Nat.leb_gt in Heq. simpl in *.
    destruct (is_nl c); [|reflexivity].
    f_equal. symmetry. apply squeeze_short. lia.
Qed.

Lemma squeeze_In x k s : In x (squeeze k s) -> In x s.
Proof.
  revert k. induction s as [|c r IH]; intros k; [intros []|].
  simpl. destruct (is_nl c); [destruct (Nat.ltb k 3)|]; simpl;
    intros H; try (destruct H as [H|H]; [left; exact H|]);
    right; apply (IH _ H).
Qed.

Lemma squeeze_runs_ok k s : k <= 3 -> runs_ok k (squeeze k s).
Proof.
  revert k. induction s as [|c r IH]; intros k Hk; [exact I|].
  simpl. destruct (is_nl c) eqn:E.
  - destruct (Nat.ltb_spec k 3).
    + simpl. rewrite E. split; [assumption | apply IH; lia].
    + apply IH. assumption.
  - simpl. rewrite E. apply IH. lia.
Qed.

Lemma squeeze_id k s : runs_ok k s -> squeeze k s = s.
Proof.
  revert k. induction s as [|c r IH]; intros k H; [reflexivity|].
  simpl in *. destruct (is_nl c).
  - destruct H as [Hk H]. apply Nat.ltb_lt in Hk. rewrite Hk.
    f_equal. apply IH, H.
  - f_equal. apply IH, H.
Qed.

Lemma squeeze_start k s : starts_inside_line s -> starts_inside_line (squeeze k s).
Proof. destruct s as [|d r]; simpl; [tauto|]. intros H. rewrite H. exact H. Qed.

Lemma squeeze_no_trailing_space k s :
  no_trailing_space s -> no_trailing_space (squeeze k s).
Proof.
  revert k. induction s as [|c r IH]; intros k H; [exact I|].
  destruct H as [Hc Hr]. simpl. destruct (is_nl c) eqn:E.
  - destruct (Nat.ltb k 3); [|apply IH, Hr].
    split; [|apply IH, Hr]. intros _ H. congruence.
  - split; [|apply IH, Hr]. intros H1 H2. apply squeeze_start, Hc; auto.
Qed.

(** *** The final line feed *)

Lemma replace_trailing_nl_idem s :
  replace_trailing_nl (replace_trailing_nl s) = replace_trailing_nl s.
Proof.
  unfold replace_trailing_nl.
  rewrite rstrip_by_snoc by reflexivity. rewrite rstrip_by_idem. reflexivity.
Qed.

Lemma replace_trailing_nl_In x s :
  In x (replace_trailing_nl s) -> x = LF \/ In x s.
Proof.
  unfold replace_trailing_nl. rewrite in_app_iff. simpl.
  intros [H | [H | []]]; [right; apply (rstrip_by_In _ _ _ H) | left; congruence].
Qed.

Lemma rstrip_nl_start s :
  starts_inside_line s -> starts_inside_line (rstrip_by is_nl s ++ [LF]).
Proof.
  destruct s as [|d r]; simpl; [tauto|]. intros H.
  destruct (rstrip_by is_nl r); [rewrite H|]; exact H.
Qed.

Lemma replace_trailing_nl_no_trailing_space s :
  no_trailing_space s -> no_trailing_space (replace_trailing_nl s).
Proof.
  unfold replace_trailing_nl.
  induction s as [|c r IH].
  - intros _. simpl. split; [intros _ H; discriminate | exact I].
  - intros [Hc Hr]. specialize (IH Hr).
    assert (Hstart : is_space c = true -> is_nl c = false ->
                     starts_inside_line (rstrip_by is_nl r ++ [LF])).
    { intros H1 H2. apply rstrip_nl_start, Hc; assumption. }
    rewrite rstrip_by_cons.
    destruct (rstrip_by is_nl r) as [|x l] eqn:Er.
    + destruct (is_nl c) eqn:E.
      * simpl. split; [intros _ H; discriminate | exact I].
      * simpl. split; [intros H1 H2; apply Hstart; auto | exact IH].
    + simpl. split; [intros H1 H2; apply Hstart; auto | exact IH].
Qed.

Lemma rstrip_nl_runs_ok k s :
  runs_ok k s -> rstrip_by is_nl s <> [] -> runs_ok k (rstrip_by is_nl s ++ [LF]).
Proof.
  revert k. induction s as [|c r IH]; intros k H Hne; [contradiction|].
  rewrite rstrip_by_cons in *. simpl in H.
  destruct (rstrip_by is_nl r) as [|x l] eqn:Er.
  - destruct (is_nl c) eqn:E; [contradiction|].
    simpl. rewrite E. simpl. split; [lia | exact I].
  - simpl. destruct (is_nl c) eqn:E.
    + destruct H as [Hk H]. split; [exact Hk|].
      apply (IH (S k) H). discriminate.
    + apply (IH 0 H). discriminate.
Qed.

Lemma replace_trailing_nl_runs_ok s :
  runs_ok 0 s -> runs_ok 0 (replace_trailing_nl s).
Proof.
  intros H. unfold replace_trailing_nl.
  destruct (rstrip_by is_nl s) as [|x l] eqn:E.
  - simpl. split; [lia | exact I].
  - rewrite <- E. apply rstrip_nl_runs_ok; [exact H|]. rewrite E. discriminate.
Qed.

(** *** The whole pipeline *)

Lemma formatPython_unfold code :
  formatPython code =
  replace_trailing_nl
    (replace_nl_runs (strip_lines (replace_tab (replace_cr (replace_crlf code))))).
Proof. reflexivity. Qed.

Lemma formatPython_In x code :
  In x (formatPython code) ->
  x = LF \/ In x (replace_tab (replace_cr (replace_crlf code))).
Proof.
  rewrite formatPython_unfold, replace_nl_runs_squeeze. intros H.
  apply replace_trailing_nl_In in H. destruct H as [H|H]; [left; exact H|].
  right. apply strip_lines_In. apply (squeeze_In _ _ _ H).
Qed.

Lemma formatPython_no_cr code : ~ In CR (formatPython code).
Proof.
  intros H. apply formatPython_In in H. destruct H as [H|H]; [discriminate|].
  apply replace_tab_In in H. destruct H as [_ [H|H]]; [discriminate|].
  apply (replace_cr_no_cr _ H).
Qed.

Lemma formatPython_no_tab code : ~ In TAB (formatPython code).
Proof.
  intros H. apply formatPython_In in H. destruct H as [H|H]; [discriminate|].
  apply replace_tab_In in H. destruct H as [H _]. apply H. reflexivity.
Qed.

Lemma formatPython_no_trailing_space code : no_trailing_space (formatPython code).
Proof.
  rewrite formatPython_unfold, replace_nl_runs_squeeze.
  apply replace_trailing_nl_no_trailing_space, squeeze_no_trailing_space,
    strip_lines_no_trailing_space.
Qed.

Lemma formatPython_runs_ok code : runs_ok 0 (formatPython code).
Proof.
  rewrite formatPython_unfold, replace_nl_runs_squeeze.
  apply replace_trailing_nl_runs_ok, squeeze_runs_ok. lia.
Qed.

End PythonCleanup.

(** C6: the Python normalization pipeline of [formatPython] (line endings
    unified, tabs expanded to four spaces, trailing white space stripped
    from each line, runs of more than two blank lines collapsed, exactly one
    final line feed) is idempotent: normalizing a normalized text changes
    nothing, for every input string. *)
Theorem formatPython_idempotent (x : jsstring) :
  formatPython (formatPython x) = formatPython x.
Proof.
  rewrite (formatPython_unfold (formatPython x)).
  rewrite (replace_crlf_id _ (formatPython_no_cr x)).
  rewrite (replace_cr_id _ (formatPython_no_cr x)).
  rewrite (replace_tab_id _ (formatPython_no_tab x)).
  rewrite (strip_lines_id _ (formatPython_no_trailing_space x)).
  rewrite replace_nl_runs_squeeze, (squeeze_id _ _ (formatPython_runs_ok x)).
  rewrite formatPython_unfold. apply replace_trailing_nl_idem.
Qed.

(** ** differ.js *)

Lemma forallb_space_trim s : forallb is_space s = true -> trim s = [].
Proof.
  unfold trim. induction s as [|c r IH]; [reflexivity|].
  simpl. intros H. apply andb_true_iff in H. destruct H as [-> H].
  apply IH, H.
Qed.

(** What a call with a target element returns or throws. *)
Lemma computeAndRenderDiff_result rt original modified o el :
  targetEl o = Some el ->
  snd (computeAndRenderDiff rt original modified o) =
  if eqb original modified
     || (negb (truthy (trim original)) && negb (truthy (trim modified)))
  then Ok {| identical := true |}
  else match Diff rt with
       | None => Throw jsdiff_missing_message
       | Some _ =>
           match Diff2HtmlUI rt with
           | None => Throw diff2html_missing_message
           | Some _ => Ok {| identical := false |}
           end
       end.
Proof.
  intros E. unfold computeAndRenderDiff. rewrite E.
  destruct (eqb original modified); [reflexivity|]. simpl orb.
  destruct (negb (truthy (trim original)) && negb (truthy (trim modified)));
    [reflexivity|].
  destruct (Diff rt); [|reflexivity].
  destruct (Diff2HtmlUI rt); reflexivity.
Qed.

Lemma identical_condition original modified :
  eqb original modified
  || (negb (truthy (trim original)) && negb (truthy (trim modified))) = true
  <-> original = modified \/ (trim original = [] /\ trim modified = []).
Proof.
  rewrite orb_true_iff, andb_true_iff, !negb_true_iff, eqb_eq, !truthy_false.
  reflexivity.
Qed.

(** C4, as amended: with a target element, the diff operation returns
    [identical] exactly when the two strings are equal or both trim to the
    empty string, hence for [diff(t, t)] and for two white-space-only
    strings; in every other case, trailing line feed or not, it returns
    [changed] provided jsdiff and diff2html are loaded, and otherwise throws
    the message of the first library that is missing. *)
Theorem computeAndRenderDiff_classification rt original modified o el :
  let r := snd (computeAndRenderDiff rt original modified (with_targetEl o el)) in
  (r = Ok {| identical := true |}
   <-> original = modified \/ (trim original = [] /\ trim modified = []))
  /\ (eqb original modified = false ->
      truthy (trim original) || truthy (trim modified) = true ->
      match Diff rt, Diff2HtmlUI rt with
      | Some _, Some _ => r = Ok {| identical := false |}
      | None, _ => r = Throw jsdiff_missing_message
      | Some _, None => r = Throw diff2html_missing_message
      end)
  /\ snd (computeAndRenderDiff rt original original (with_targetEl o el))
     = Ok {| identical := true |}
  /\ (forallb is_space original = true -> forallb is_space modified = true ->
      r = Ok {| identical := true |}).
Proof.
  intros r. subst r.
  rewrite !(computeAndRenderDiff_result rt _ _ (with_targetEl o el) el eq_refl).
  rewrite eqb_refl. simpl orb.
  pose proof (identical_condition original modified) as Hc.
  destruct (eqb original modified
            || (negb (truthy (trim original)) && negb (truthy (trim modified)))).
  - repeat split; try reflexivity.
    + intros _. apply Hc. reflexivity.
    + intros H1 H2. exfalso. destruct Hc as [Hc _]. specialize (Hc eq_refl).
      destruct Hc as [Hc | [Ha Hb]].
      * apply eqb_eq in Hc. congruence.
      * rewrite Ha, Hb in H2. discriminate.
  - assert (Hne : ~ (original = modified \/ trim original = [] /\ trim modified = [])).
    { intros H. apply Hc in H. discriminate. }
    repeat split.
    + intros H. exfalso. destruct (Diff rt); [destruct (Diff2HtmlUI rt)|]; discriminate.
    + intros H. contradiction.
    + intros _ _. destruct (Diff rt); [destruct (Diff2HtmlUI rt)|]; reflexivity.
    + intros Ha Hb. exfalso. apply Hne. right.
      split; apply forallb_space_trim; assumption.
Qed.

Lemma computeAndRenderDiff_classification_witness :
  snd (computeAndRenderDiff with_diff_libraries (js "a") (js "a" ++ [LF])
         (with_targetEl no_diff_options []))
  = Ok {| identical := false |}
  /\ snd (computeAndRenderDiff offline (js " ") [LF; TAB]
            (with_targetEl no_diff_options []))
     = Ok {| identical := true |}.
Proof.
  split.
  - apply (proj1 (proj2 (computeAndRenderDiff_classification
                           with_diff_libraries (js "a") (js "a" ++ [LF])
                           no_diff_options []))); reflexivity.
  - apply (proj2 (proj2 (proj2 (computeAndRenderDiff_classification
                                  offline (js " ") [LF; TAB] no_diff_options []))));
      reflexivity.
Defined.

(** C4 as stated fails: two different non-blank strings are not classified
    as changed when jsdiff is not loaded; the call throws. *)
Lemma computeAndRenderDiff_not_always_classified :
  js "a" <> js "b" /\ trim (js "a") <> [] /\
  snd (computeAndRenderDiff offline (js "a") (js "b")
         (with_targetEl no_diff_options []))
  = Throw jsdiff_missing_message.
Proof. repeat split; discriminate. Qed.

(** C8: swapping the two texts (and with them the two labels) leaves what
    the diff operation returns or throws unchanged, so the classification as
    identical or changed is symmetric; only what is rendered differs. *)
Theorem computeAndRenderDiff_symmetric rt a b o :
  snd (computeAndRenderDiff rt a b o)
  = snd (computeAndRenderDiff rt b a (swap_labels o))
  /\ snd (computeAndRenderDiff rt a b o) = snd (computeAndRenderDiff rt b a o).
Proof.
  destruct (targetEl o) as [el|] eqn:E.
  - rewrite (computeAndRenderDiff_result rt a b o el E).
    rewrite (computeAndRenderDiff_result rt b a (swap_labels o) el E).
    rewrite (computeAndRenderDiff_result rt b a o el E).
    rewrite (eqb_sym b a), (andb_comm (negb (truthy (trim b)))).
    split; reflexivity.
  - unfold computeAndRenderDiff. simpl. rewrite E. split; reflexivity.
Qed.

(** ** app.js: the documents of the editors *)

Lemma normalize_line_breaks_no_cr s : ~ In CR (normalize_line_breaks s).
Proof. apply replace_cr_no_cr. Qed.

Lemma normalize_line_breaks_id s : ~ In CR s -> normalize_line_breaks s = s.
Proof.
  intros H. unfold normalize_line_breaks.
  rewrite (replace_crlf_id s H). apply replace_cr_id, H.
Qed.

Lemma normalize_line_breaks_idem s :
  normalize_line_breaks (normalize_line_breaks s) = normalize_line_breaks s.
Proof. apply normalize_line_breaks_id, normalize_line_breaks_no_cr. Qed.

Example normalize_line_breaks_example :
  normalize_line_breaks (js "p" ++ [CR] ++ js "x" ++ [CR; LF] ++ js "y" ++ [LF])
  = js "p" ++ [LF] ++ js "x" ++ [LF] ++ js "y" ++ [LF].
Proof. reflexivity. Qed.

(** What is read from an editor is the text it was last given, with every
    line break as LF. *)
Lemma getEditorContent_setEditorContent editor content :
  getEditorContent (setEditorContent editor content) = normalize_line_breaks content.
Proof. apply normalize_line_breaks_idem. Qed.

Lemma getDiffEditorContent_no_cr p k : ~ In CR (getDiffEditorContent p k).
Proof. apply normalize_line_breaks_no_cr. Qed.

(** ** app.js: the formatting pass *)

Lemma format_editors_preformatted rt p :
  format_editors rt (diff_language p) (filter (has_content p) allKeys) p
  = preformatted rt p.
Proof.
  unfold preformatted, formatted_document, allKeys, filter.
  destruct (has_content p A), (has_content p B), (has_content p C);
    destruct p as [[fi fo a b c] t pr vm lang fl sd cont st];
    unfold format_editors, getDiffEditorContent, setDiffEditorContent,
      getEditorContent, setEditorContent, getDiffEditor;
    cbn -[formatCode normalize_line_breaks];
    destruct (formatCode rt (normalize_line_breaks a) lang no_options);
    cbn -[formatCode normalize_line_breaks];
    destruct (formatCode rt (normalize_line_breaks b) lang no_options);
    cbn -[formatCode normalize_line_breaks];
    destruct (formatCode rt (normalize_line_breaks c) lang no_options);
    reflexivity.
Qed.

(** ** app.js: the comparison loop *)

Section DiffEditors.

Variable rt : Runtime.
Variables baseContent baseTitle mode lang : jsstring.

Lemma diff_editors_spec others :
  forall allIdentical p,
    let rs := map (loop_outcome rt baseContent baseTitle mode lang p) others in
    let run := diff_editors rt baseContent baseTitle mode lang
                 others allIdentical p in
    (exists entries,
        fst run = with_container p (diff_output_container p ++ entries)
        /\ length entries = attempts rs)
    /\ snd run = match first_throw rs with
                 | Some m => Throw m
                 | None => Ok (allIdentical && forallb is_identical rs)
                 end.
Proof.
  induction others as [|k rest IH]; intros acc p.
  - simpl. split.
    + exists []. rewrite app_nil_r. destruct p; split; reflexivity.
    + rewrite andb_true_r. reflexivity.
  - cbn [diff_editors map]. cbv zeta.
    fold (loop_outcome rt baseContent baseTitle mode lang p k).
    destruct (loop_outcome rt baseContent baseTitle mode lang p k) as [d|m] eqn:E.
    + match goal with
      | |- context [diff_editors _ _ _ _ _ rest ?acc' ?p'] =>
          destruct (IH acc' p') as [(entries & Hfst & Hlen) Hsnd]
      end.
      split.
      * eexists (_ :: entries). rewrite Hfst. simpl.
        rewrite <- app_assoc. split; [reflexivity|].
        simpl. f_equal. exact Hlen.
      * rewrite Hsnd. simpl first_throw.
        change (map (loop_outcome rt baseContent baseTitle mode lang (with_container p _)) rest)
          with (map (loop_outcome rt baseContent baseTitle mode lang p) rest).
        destruct (first_throw (map (loop_outcome rt baseContent baseTitle mode lang p) rest));
          [reflexivity|].
        simpl. destruct (identical d); simpl; [reflexivity|].
        rewrite andb_false_r. reflexivity.
    + split.
      * eexists [_]. split; reflexivity.
      * reflexivity.
Qed.

End DiffEditors.

(** ** app.js: a run of [handleDiff] that passes validation *)

Lemma document_preformatted rt p k :
  getDiffEditor (preformatted rt p) k = formatted_document rt p k.
Proof. destruct k; reflexivity. Qed.

Lemma content_preformatted rt p k :
  getDiffEditorContent (preformatted rt p) k = formatted_content rt p k.
Proof.
  unfold getDiffEditorContent. rewrite document_preformatted.
  unfold formatted_document, formatted_content.
  destruct (has_content p k); [|reflexivity].
  destruct (formatCode _ _ _ _);
    [apply getEditorContent_setEditorContent | reflexivity].
Qed.

Lemma othersWithContent_nil p :
  othersWithContent p = [] <-> existsb (has_content p) (otherKeys p) = false.
Proof.
  unfold othersWithContent.
  induction (otherKeys p) as [|k ks IH]; simpl; [tauto|].
  destruct (has_content p k); simpl; [split; discriminate | exact IH].
Qed.


Lemma handleDiff_valid rt p :
  has_content p (primary p) = true ->
  existsb (has_content p) (otherKeys p) = true ->
  editors (handleDiff rt p) = editors (preformatted rt p)
  /\ status_bar (handleDiff rt p) = verdict rt p
  /\ length (diff_output_container (handleDiff rt p))
     = attempts (collected_results rt p).
Proof.
  intros Hbase Hex.
  assert (Hothers : othersWithContent p <> []).
  { intros E. apply othersWithContent_nil in E. congruence. }
  unfold handleDiff. cbv zeta.
  pose proof (format_editors_preformatted rt (with_container p [])) as Hf.
  change (has_content (with_container p [])) with (has_content p) in Hf |- *.
  change (primary (with_container p [])) with (primary p).
  change (diff_language (with_container p [])) with (diff_language p) in Hf |- *.
  change (diff_view_mode (with_container p [])) with (diff_view_mode p).
  rewrite Hf. clear Hf.
  fold (otherKeys p). fold (othersWithContent p).
  assert (Hn : Nat.eqb (length (othersWithContent p)) 0 = false).
  { destruct (othersWithContent p); [contradiction | reflexivity]. }
  rewrite Hbase, Hn. cbn [negb andb].
  pose proof (diff_editors_spec rt
                (getDiffEditorContent (preformatted rt (with_container p [])) (primary p))
                (getDiffEditorTitle (preformatted rt (with_container p [])) (primary p))
                (diff_view_mode p) (diff_language p) (othersWithContent p) true
                (preformatted rt (with_container p []))) as Hspec.
  cbv zeta in Hspec.
  assert (Hrs : map (loop_outcome rt
                       (getDiffEditorContent (preformatted rt (with_container p [])) (primary p))
                       (getDiffEditorTitle (preformatted rt (with_container p [])) (primary p))
                       (diff_view_mode p) (diff_language p)
                       (preformatted rt (with_container p [])))
                  (othersWithContent p)
                = collected_results rt p).
  { unfold collected_results. apply map_ext. intros k.
    unfold pair_result, loop_outcome. rewrite !content_preformatted. reflexivity. }
  rewrite Hrs in Hspec. clear Hrs.
  destruct Hspec as [(entries & Hfst & Hlen) Hsnd].
  destruct (diff_editors _ _ _ _ _ _ _ _) as [p2 r].
  simpl in Hfst, Hsnd. subst p2 r.
  unfold verdict.
  destruct (first_throw (collected_results rt p)) as [m|].
  - repeat split; try reflexivity. simpl. exact Hlen.
  - simpl andb. destruct (forallb is_identical (collected_results rt p));
      repeat split; try reflexivity; simpl; exact Hlen.
Qed.

Lemma first_throw_none {T} (rs : list (result T)) :
  first_throw rs = None <-> forallb returned rs = true.
Proof.
  induction rs as [|[v|m] rs IH]; simpl; [tauto | exact IH |].
  split; discriminate.
Qed.

Lemma attempts_all_returned {T} (rs : list (result T)) :
  first_throw rs = None -> attempts rs = length rs.
Proof.
  induction rs as [|[v|m] rs IH]; simpl; intros H;
    [reflexivity | f_equal; apply IH, H | discriminate].
Qed.









(** The scenario of two editors that are not JSON, compared as [json]:
    formatting fails silently, the raw texts are compared, and the one
    comparison finds a change. *)
Example handleDiff_json_scenario :
  let p := with_language
             (page_with (js "a" ++ [LF] ++ js "b" ++ [LF])
                        (js "a" ++ [LF] ++ js "c" ++ [LF]) [])
             (js "json") in
  editors (handleDiff with_diff_libraries p) = editors p
  /\ collected_results with_diff_libraries p = [Ok {| identical := false |}]
  /\ status_bar (handleDiff with_diff_libraries p)
     = success (diff_computed_message 1)
  /\ length (diff_output_container (handleDiff with_diff_libraries p)) = 1.
Proof. repeat split. Qed.

(** ** app.js: validation *)

Lemma handleDiff_rejected rt p m :
  (if negb (has_content p (primary p)) && negb (existsb (has_content p) (otherKeys p))
   then Some nothing_to_compare_message
   else if negb (has_content p (primary p)) then Some base_empty_message
   else if negb (existsb (has_content p) (otherKeys p))
   then Some insufficient_input_message
   else None) = Some m ->
  handleDiff rt p = showStatus (with_container p []) m (js "error").
Proof.
  unfold handleDiff. cbv zeta.
  change (has_content (with_container p [])) with (has_content p).
  change (primary (with_container p [])) with (primary p).
  fold (otherKeys p). fold (othersWithContent p).
  assert (Hn : Nat.eqb (length (othersWithContent p)) 0
               = negb (existsb (has_content p) (otherKeys p))).
  { destruct (othersWithContent p) eqn:Eo.
    - apply othersWithContent_nil in Eo. rewrite Eo. reflexivity.
    - destruct (existsb (has_content p) (otherKeys p)) eqn:E; [reflexivity|].
      apply othersWithContent_nil in E. congruence. }
  rewrite Hn.
  destruct (has_content p (primary p)), (existsb (has_content p) (otherKeys p));
    simpl; intros [= <-]; reflexivity.
Qed.

(** C2, as amended: with the base empty and a candidate not, [handleDiff]
    fails with [BaseEmpty]; with the base not empty and every candidate
    empty, with [InsufficientInput]; with all editors empty, with
    [NothingToCompare].  In each case the output is cleared, no editor is
    touched and no comparison is made; and with fewer than two editors
    holding content one of the three always happens. *)
Theorem handleDiff_validation rt p :
  let base := has_content p (primary p) in
  let candidates := existsb (has_content p) (otherKeys p) in
  let rejected m :=
    handleDiff rt p = showStatus (with_container p []) m (js "error") in
  (base = false -> candidates = true -> rejected base_empty_message)
  /\ (base = true -> candidates = false -> rejected insufficient_input_message)
  /\ (base = false -> candidates = false -> rejected nothing_to_compare_message)
  /\ (count_with_content p < 2 ->
      rejected base_empty_message \/ rejected insufficient_input_message
      \/ rejected nothing_to_compare_message).
Proof.
  intros base candidates rejected. subst base candidates rejected. cbv beta.
  pose proof (handleDiff_rejected rt p) as H.
  repeat split.
  - intros Hb Ho. apply H. rewrite Hb, Ho. reflexivity.
  - intros Hb Ho. apply H. rewrite Hb, Ho. reflexivity.
  - intros Hb Ho. apply H. rewrite Hb, Ho. reflexivity.
  - intros Hc.
    destruct (has_content p (primary p)) eqn:Hb;
      destruct (existsb (has_content p) (otherKeys p)) eqn:Ho;
      try (left; apply H; reflexivity);
      try (right; left; apply H; reflexivity);
      try (right; right; apply H; reflexivity).
    exfalso. revert Hc Hb Ho. unfold count_with_content, otherKeys, allKeys.
    destruct (primary p); simpl;
      destruct (has_content p A), (has_content p B), (has_content p C); simpl;
      intros; try discriminate; lia.
Qed.

Lemma handleDiff_validation_witness :
  handleDiff offline (page_with [] (js "b") [])
  = showStatus (page_with [] (js "b") []) base_empty_message (js "error")
  /\ handleDiff offline (page_with (js "a") [SP] [])
     = showStatus (page_with (js "a") [SP] []) insufficient_input_message (js "error")
  /\ handleDiff offline (page_with [] [LF] [TAB])
     = showStatus (page_with [] [LF] [TAB]) nothing_to_compare_message (js "error")
  /\ (handleDiff offline (page_with (js "x") [] [])
      = showStatus (page_with (js "x") [] []) base_empty_message (js "error")
      \/ handleDiff offline (page_with (js "x") [] [])
         = showStatus (page_with (js "x") [] []) insufficient_input_message (js "error")
      \/ handleDiff offline (page_with (js "x") [] [])
         = showStatus (page_with (js "x") [] []) nothing_to_compare_message (js "error")).
Proof.
  split; [|split; [|split]].
  - apply (proj1 (handleDiff_validation offline (page_with [] (js "b") [])));
      reflexivity.
  - apply (proj1 (proj2 (handleDiff_validation offline (page_with (js "a") [SP] []))));
      reflexivity.
  - apply (proj1 (proj2 (proj2 (handleDiff_validation offline
                                  (page_with [] [LF] [TAB])))));
      reflexivity.
  - apply (proj2 (proj2 (proj2 (handleDiff_validation offline
                                  (page_with (js "x") [] []))))).
    vm_compute. lia.
Defined.

(** C2 as stated fails: with content in the base alone no two editors hold
    content, yet the failure is [InsufficientInput], not
    [NothingToCompare]. *)
Lemma handleDiff_one_buffer_not_nothing_to_compare :
  count_with_content (page_with (js "x") [] []) = 1
  /\ status_bar (handleDiff offline (page_with (js "x") [] []))
     = error insufficient_input_message
  /\ insufficient_input_message <> nothing_to_compare_message.
Proof. repeat split. discriminate. Qed.

(** ** app.js: the formatting pass inside [handleDiff] *)



(** A formatter that writes a carriage return: the editors read back line
    feeds, and it is these texts that are compared. *)
Example handleDiff_carriage_return_scenario :
  let p := with_language (page_with (js "p") (js "q") []) (js "sql") in
  formatCode with_cr_formatter (js "p") (js "sql") no_options = Ok (js "x" ++ [CR])
  /\ formatCode with_cr_formatter (js "q") (js "sql") no_options = Ok (js "x" ++ [LF])
  /\ getDiffEditorContent (handleDiff with_cr_formatter p) A = js "x" ++ [LF]
  /\ getDiffEditorContent (handleDiff with_cr_formatter p) B = js "x" ++ [LF]
  /\ collected_results with_cr_formatter p = [Ok {| identical := true |}]
  /\ status_bar (handleDiff with_cr_formatter p) = success no_differences_message.
Proof. repeat split. Qed.

(** ** app.js: the SQL dialect selector *)

(** [formatSQL] falls back to the generic dialect on a dialect it does not
    know, and the format handler, unlike the diff handler, passes the
    dialect that is selected. *)
Example languageMap_lookup_unknown :
  languageMap_lookup (js "unknown-dialect") = SqlDialect (js "sql")
  /\ languageMap_lookup (js "mysql") = SqlDialect (js "mysql").
Proof. split; reflexivity. Qed.

Example formatCode_sql_dialect_example :
  formatCode with_sql_formatter (js "select 1") (js "sql")
    {| sqlDialect := Some (js "mysql") |}
  = Ok (js "-- mysql" ++ [LF] ++ js "select 1")
  /\ formatCode with_sql_formatter (js "select 1") (js "sql") no_options
     = Ok (js "-- sql" ++ [LF] ++ js "select 1").
Proof. split; reflexivity. Qed.

Lemma format_editors_sql_dialect rt lang keys d :
  forall p,
    format_editors rt lang keys (with_sql_dialect p d)
    = with_sql_dialect (format_editors rt lang keys p) d.
Proof.
  induction keys as [|k ks IH]; intros p; [reflexivity|].
  cbn [format_editors].
  change (getDiffEditorContent (with_sql_dialect p d) k)
    with (getDiffEditorContent p k).
  destruct (formatCode rt (getDiffEditorContent p k) lang no_options).
  - rewrite <- IH. reflexivity.
  - apply IH.
Qed.

Lemma diff_editors_sql_dialect rt bc bt mode lang others d :
  forall acc p,
    diff_editors rt bc bt mode lang others acc (with_sql_dialect p d)
    = (with_sql_dialect (fst (diff_editors rt bc bt mode lang others acc p)) d,
       snd (diff_editors rt bc bt mode lang others acc p)).
Proof.
  induction others as [|k ks IH]; intros acc p; [reflexivity|].
  cbn [diff_editors]. cbv zeta.
  change (getDiffEditorContent (with_sql_dialect p d) k)
    with (getDiffEditorContent p k).
  change (getDiffEditorTitle (with_sql_dialect p d) k)
    with (getDiffEditorTitle p k).
  change (diff_output_container (with_sql_dialect p d))
    with (diff_output_container p).
  destruct (snd (computeAndRenderDiff _ _ _ _)); [|reflexivity].
  rewrite <- IH. reflexivity.
Qed.

Lemma handleDiff_sql_dialect rt p d :
  handleDiff rt (with_sql_dialect p d) = with_sql_dialect (handleDiff rt p) d.
Proof.
  unfold handleDiff. cbv zeta.
  change (with_container (with_sql_dialect p d) [])
    with (with_sql_dialect (with_container p []) d).
  change (has_content (with_sql_dialect (with_container p []) d))
    with (has_content (with_container p [])).
  change (primary (with_sql_dialect p d)) with (primary p).
  change (diff_language (with_sql_dialect p d)) with (diff_language p).
  change (diff_view_mode (with_sql_dialect p d)) with (diff_view_mode p).
  destruct (_ && _); [reflexivity|].
  destruct (negb _); [reflexivity|].
  destruct (Nat.eqb _ _); [reflexivity|].
  rewrite format_editors_sql_dialect.
  set (p1 := format_editors _ _ _ _).
  change (getDiffEditorContent (with_sql_dialect p1 d)) with (getDiffEditorContent p1).
  change (getDiffEditorTitle (with_sql_dialect p1 d)) with (getDiffEditorTitle p1).
  rewrite diff_editors_sql_dialect.
  destruct (diff_editors _ _ _ _ _ _ _ _) as [p2 [[|]|m]]; reflexivity.
Qed.

(** C10: [handleDiff] never reads the SQL dialect selector (a run on a page
    that differs in the selected dialect alone differs in nothing else), and
    with [sql] as the diff language every editor with content is formatted
    by sql-formatter under the generic [sql] dialect: its text is replaced
    by what that call returns, read back with its line breaks as LF, or kept
    when the call throws or the library is not loaded. *)
Theorem handleDiff_uses_generic_sql_dialect rt p :
  (forall dialect,
      handleDiff rt (with_sql_dialect p dialect)
      = with_sql_dialect (handleDiff rt p) dialect)
  /\ (diff_language p = js "sql" ->
      has_content p (primary p) = true ->
      existsb (has_content p) (otherKeys p) = true ->
      forall k,
        has_content p k = true ->
        getDiffEditorContent (handleDiff rt p) k =
        match sqlFormatter rt with
        | Some sqlFormatter_format =>
            match sqlFormatter_format (getDiffEditorContent p k) generic_sql_options with
            | Ok formatted => normalize_line_breaks formatted
            | Throw _ => getDiffEditorContent p k
            end
        | None => getDiffEditorContent p k
        end).
Proof.
  split; [intros d; apply handleDiff_sql_dialect|].
  intros Hl Hb Ho k Hk.
  destruct (handleDiff_valid rt p Hb Ho) as (He & _).
  replace (getDiffEditorContent (handleDiff rt p) k) with (formatted_content rt p k).
  2:{ rewrite <- content_preformatted. unfold getDiffEditorContent, getDiffEditor.
      rewrite He. reflexivity. }
  unfold formatted_content. rewrite Hk, Hl.
  unfold formatCode. unfold has_content in Hk. rewrite Hk.
  cbn [negb]. compare_literals. unfold formatSQL.
  destruct (sqlFormatter rt); reflexivity.
Qed.

Lemma handleDiff_uses_generic_sql_dialect_witness :
  getDiffEditorContent
    (handleDiff with_sql_formatter
       (with_sql_dialect
          (with_language (page_with (js "select 1") (js "select 2") []) (js "sql"))
          (js "mysql"))) B
  = js "-- sql" ++ [LF] ++ js "select 2".
Proof.
  refine (proj2 (handleDiff_uses_generic_sql_dialect with_sql_formatter
                   (with_sql_dialect
                      (with_language (page_with (js "select 1") (js "select 2") [])
                         (js "sql"))
                      (js "mysql"))) _ _ _ B _);
    reflexivity.
Defined.

(** ** app.js: rotation of the three buffers *)

Lemma handleCycle_unfold p :
  handleCycle p =
  showStatus
    (with_title_inputs
       (with_editors p
          {| formatInput := formatInput (editors p);
             formatOutput := formatOutput (editors p);
             diffA := normalize_line_breaks (getDiffEditorContent p C);
             diffB := normalize_line_breaks (getDiffEditorContent p A);
             diffC := normalize_line_breaks (getDiffEditorContent p B) |})
       {| titleA := match titleA (title_inputs p) with
                    | Some _ => Some (default_to (titleC (title_inputs p)) [])
                    | None => None
                    end;
          titleB := match titleB (title_inputs p) with
                    | Some _ => Some (default_to (titleA (title_inputs p)) [])
                    | None => None
                    end;
          titleC := match titleC (title_inputs p) with
                    | Some _ => Some (default_to (titleB (title_inputs p)) [])
                    | None => None
                    end |})
    contents_cycled_message (js "success").
Proof. reflexivity. Qed.

Lemma read_content_again p k :
  normalize_line_breaks (getDiffEditorContent p k) = getDiffEditorContent p k.
Proof. apply normalize_line_breaks_id, getDiffEditorContent_no_cr. Qed.

Lemma with_buffers_content p a b c :
  getDiffEditorContent (with_buffers p a b c) A = normalize_line_breaks (fst a)
  /\ getDiffEditorContent (with_buffers p a b c) B = normalize_line_breaks (fst b)
  /\ getDiffEditorContent (with_buffers p a b c) C = normalize_line_breaks (fst c).
Proof. repeat split; apply getEditorContent_setEditorContent. Qed.

Lemma handleCycle_showStatus p m t : handleCycle (showStatus p m t) = handleCycle p.
Proof. reflexivity. Qed.

Lemma handleCycle_with_buffers p a b c :
  handleCycle (with_buffers p a b c)
  = showStatus (with_buffers p c a b) contents_cycled_message (js "success").
Proof.
  rewrite handleCycle_unfold, !read_content_again.
  destruct (with_buffers_content p a b c) as (-> & -> & ->).
  reflexivity.
Qed.

Lemma handleCycle_content p :
  getDiffEditorContent (handleCycle p) A = getDiffEditorContent p C
  /\ getDiffEditorContent (handleCycle p) B = getDiffEditorContent p A
  /\ getDiffEditorContent (handleCycle p) C = getDiffEditorContent p B.
Proof.
  rewrite handleCycle_unfold, !read_content_again.
  repeat split; apply read_content_again.
Qed.

(** C7: [handleCycle] is a total function of the page; on any three
    content and title pairs it leaves [A] with the pair of [C], [B] with the
    pair of [A] and [C] with the pair of [B], contents and titles alike, and
    three rotations give back the three pairs (with the status bar telling
    of the rotation).  The contents rotate on every page. *)
Theorem handleCycle_rotation p a b c :
  handleCycle (with_buffers p a b c)
  = showStatus (with_buffers p c a b) contents_cycled_message (js "success")
  /\ handleCycle (handleCycle (handleCycle (with_buffers p a b c)))
     = showStatus (with_buffers p a b c) contents_cycled_message (js "success")
  /\ (getDiffEditorContent (handleCycle p) A = getDiffEditorContent p C
      /\ getDiffEditorContent (handleCycle p) B = getDiffEditorContent p A
      /\ getDiffEditorContent (handleCycle p) C = getDiffEditorContent p B).
Proof.
  split; [apply handleCycle_with_buffers|]. split; [|apply handleCycle_content].
  rewrite handleCycle_with_buffers, handleCycle_showStatus.
  rewrite handleCycle_with_buffers, handleCycle_showStatus.
  apply handleCycle_with_buffers.
Qed.

(** ** formatter.js: markup options *)

(** C9, as amended: for [xml], as for [html], [formatCode] hands the text to
    the [html_beautify] capability with a 2-space indent, new lines
    preserved up to 2 in a row, a final new line and wrapping at 120
    columns; [html] adds [indent_inner_html], which [xml] does not set, and
    [xml] adds empty [content_unformatted] and [unformatted] lists. *)
Theorem formatCode_markup_options rt code options beautify :
  getBeautify rt (js "html_beautify") = Some beautify ->
  truthy (trim code) = true ->
  formatCode rt code (js "xml") options =
    beautify code
      {| indent_size := Some 2%N;
         space_in_empty_paren := None;
         preserve_newlines := Some true;
         max_preserve_newlines := Some 2%N;
         end_with_newline := Some true;
         wrap_line_length := Some 120%N;
         indent_inner_html := None;
         newline_between_rules := None;
         content_unformatted := Some [];
         unformatted := Some [] |}
  /\ formatCode rt code (js "html") options =
    beautify code
      {| indent_size := Some 2%N;
         space_in_empty_paren := None;
         preserve_newlines := Some true;
         max_preserve_newlines := Some 2%N;
         end_with_newline := Some true;
         wrap_line_length := Some 120%N;
         indent_inner_html := Some true;
         newline_between_rules := None;
         content_unformatted := None;
         unformatted := None |}.
Proof.
  intros Hg Hc. unfold formatCode. rewrite Hc. cbn [negb]. cbv iota.
  compare_literals. unfold formatXML, formatHTML. rewrite Hg.
  split; reflexivity.
Qed.

Lemma formatCode_markup_options_witness :
  formatCode with_beautify_probe (js "<a><b/></a>") (js "xml") no_options
  = Ok (js "default").
Proof.
  refine (proj1 (formatCode_markup_options with_beautify_probe (js "<a><b/></a>")
                   no_options _ _ _)); reflexivity.
Defined.

(** C9 as stated fails: the options [formatXML] gives the beautifier do not
    ask for the indentation of inner markup that [formatHTML] asks for. *)
Lemma formatXML_no_indent_inner_html :
  indent_inner_html xml_options = None
  /\ indent_inner_html html_options = Some true
  /\ formatCode with_beautify_probe (js "<a><b/></a>") (js "xml") no_options
     = Ok (js "default")
  /\ formatCode with_beautify_probe (js "<a><b/></a>") (js "html") no_options
     = Ok (js "indent_inner_html").
Proof. repeat split. Qed.

(** ** formatter.js: JSON *)

(** The stand-in [JSON] object at work: white space around the value is
    skipped, and [Infinity] is written as [null]. *)
Example literal_JSON_example :
  JSON_parse literal_JSON (js " true" ++ [LF]) = Ok JSON_true
  /\ JSON_parse literal_JSON (js "1e999") = Ok JSON_Infinity
  /\ JSON_stringify literal_JSON JSON_Infinity 2%N = js "null"
  /\ JSON_parse literal_JSON (js "{a:1}") = Throw (js "Unexpected token").
Proof. repeat split. Qed.





(** * Further properties *)

(** ** Strings *)




(** A string has content exactly when some character is not white space. *)
Lemma truthy_trim_nonspace s : truthy (trim s) = truthy (nonspace s).
Proof.
  unfold trim. induction s as [|c r IH]; [reflexivity|].
  unfold nonspace in *. cbn [lstrip_by filter].
  destruct (is_space c) eqn:E; cbn [negb]; [exact IH|].
  rewrite (rstrip_by_keep is_space c r (or_introl E)). reflexivity.
Qed.

Lemma nonspace_app a b : nonspace (a ++ b) = nonspace a ++ nonspace b.
Proof. apply filter_app. Qed.

Lemma nonspace_all_space p w :
  (forall c, p c = true -> is_space c = true) ->
  forallb p w = true -> nonspace w = [].
Proof.
  intros Hp. induction w as [|c r IH]; [reflexivity|].
  simpl. intros H. apply andb_true_iff in H. destruct H as [Hc Hr].
  unfold nonspace in *. simpl. rewrite (Hp c Hc). simpl. apply IH, Hr.
Qed.

Lemma nonspace_rstrip_by p s :
  (forall c, p c = true -> is_space c = true) ->
  nonspace (rstrip_by p s) = nonspace s.
Proof.
  intros Hp. destruct (rstrip_by_spec p s) as (w & E & Hw).
  rewrite E at 2. rewrite nonspace_app, (nonspace_all_space p w Hp Hw).
  symmetry. apply app_nil_r.
Qed.

Lemma is_nl_space c : is_nl c = true -> is_space c = true.
Proof. intros H. apply N.eqb_eq in H. subst. reflexivity. Qed.

Lemma endsWith_nl_snoc s c : endsWith_nl (s ++ [c]) = is_nl c.
Proof. unfold endsWith_nl. rewrite rev_app_distr. reflexivity. Qed.

Lemma rstrip_by_not_last s : endsWith_nl (rstrip_by is_nl s) = false.
Proof.
  destruct (rstrip_by is_nl s) as [|x l] eqn:E using rev_ind; [reflexivity|].
  rewrite endsWith_nl_snoc. apply (rstrip_by_last is_nl s l x E).
Qed.

Lemma rstrip_by_unchanged s :
  endsWith_nl s = false -> rstrip_by is_nl s = s.
Proof.
  induction s as [|c r IH]; [reflexivity|].
  intros H. rewrite rstrip_by_cons.
  destruct r as [|d r'].
  - simpl. unfold endsWith_nl in H. simpl in H. rewrite H. reflexivity.
  - assert (Hr : endsWith_nl (d :: r') = false).
    { unfold endsWith_nl in *. simpl in *.
      destruct (rev r' ++ [d]) eqn:E; [destruct (rev r'); discriminate|].
      simpl in H. exact H. }
    rewrite (IH Hr). reflexivity.
Qed.

(** ** formatter.js: what the Python clean-up leaves and keeps *)

Lemma replace_crlf_cons c d r :
  replace_crlf (c :: d :: r) =
  if N.eqb c CR && N.eqb d LF then LF :: replace_crlf r
  else c :: replace_crlf (d :: r).
Proof. reflexivity. Qed.

Lemma nonspace_cons c s :
  nonspace (c :: s) = if is_space c then nonspace s else c :: nonspace s.
Proof. unfold nonspace. simpl. destruct (is_space c); reflexivity. Qed.

Lemma nonspace_replace_crlf s : nonspace (replace_crlf s) = nonspace s.
Proof.
  assert (H : forall n s, length s <= n -> nonspace (replace_crlf s) = nonspace s).
  { induction n as [|n IH]; intros [|c t] Hl; try reflexivity; simpl in Hl; [lia|].
    destruct t as [|d r]; [reflexivity|].
    rewrite replace_crlf_cons.
    destruct (N.eqb c CR && N.eqb d LF) eqn:E.
    - apply andb_true_iff in E. destruct E as [Ec Ed].
      apply N.eqb_eq in Ec, Ed. subst.
      rewrite !nonspace_cons. change (is_space LF) with true.
      change (is_space CR) with true. cbv iota. apply IH. simpl in Hl. lia.
    - rewrite (nonspace_cons c (replace_crlf _)), (nonspace_cons c (d :: r)).
      rewrite (IH (d :: r)) by lia. reflexivity. }
  apply (H (length s)). lia.
Qed.

Lemma nonspace_replace_cr s : nonspace (replace_cr s) = nonspace s.
Proof.
  unfold nonspace, replace_cr. induction s as [|c r IH]; [reflexivity|].
  simpl. destruct (N.eqb c CR) eqn:E.
  - apply N.eqb_eq in E. subst. simpl. exact IH.
  - rewrite IH. reflexivity.
Qed.

Lemma nonspace_replace_tab s : nonspace (replace_tab s) = nonspace s.
Proof.
  unfold replace_tab. induction s as [|c r IH]; [reflexivity|].
  simpl flat_map. rewrite nonspace_app, IH.
  destruct (N.eqb c TAB) eqn:E.
  - apply N.eqb_eq in E. subst. reflexivity.
  - rewrite <- nonspace_app. reflexivity.
Qed.

Lemma nonspace_strip_lines s : nonspace (strip_lines s) = nonspace s.
Proof.
  induction s as [|c r IH]; [reflexivity|].
  rewrite strip_lines_cons, (nonspace_cons c r). destruct (is_nl c) eqn:E.
  - rewrite (is_nl_space c E), nonspace_cons. exact IH.
  - destruct (rstrip_by is_space (first_line r));
      [destruct (is_space c) eqn:Hc|];
      rewrite ?nonspace_cons, ?Hc, IH; reflexivity.
Qed.

Lemma nonspace_squeeze k s : nonspace (squeeze k s) = nonspace s.
Proof.
  revert k. induction s as [|c r IH]; intros k; [reflexivity|].
  rewrite (nonspace_cons c r). cbn [squeeze]. destruct (is_nl c) eqn:E.
  - rewrite (is_nl_space c E).
    destruct (Nat.ltb k 3); [rewrite nonspace_cons, (is_nl_space c E)|]; apply IH.
  - rewrite nonspace_cons, IH. reflexivity.
Qed.

Lemma nonspace_replace_trailing_nl s : nonspace (replace_trailing_nl s) = nonspace s.
Proof.
  unfold replace_trailing_nl.
  rewrite nonspace_app, (nonspace_rstrip_by is_nl s is_nl_space).
  apply app_nil_r.
Qed.

Lemma nonspace_formatPython x : nonspace (formatPython x) = nonspace x.
Proof.
  rewrite formatPython_unfold, nonspace_replace_trailing_nl,
    replace_nl_runs_squeeze, nonspace_squeeze, nonspace_strip_lines,
    nonspace_replace_tab, nonspace_replace_cr, nonspace_replace_crlf.
  reflexivity.
Qed.

Lemma join_split s : join_with LF (split_on LF s) = s.
Proof.
  induction s as [|c r IH]; [reflexivity|].
  rewrite split_on_cons. destruct (is_nl c) eqn:E.
  - apply N.eqb_eq in E. subst c. rewrite join_with_cons.
    pose proof (split_on_first_rest r) as Hr.
    destruct (split_on LF r); [discriminate|]. simpl. simpl in IH.
    rewrite IH. reflexivity.
  - rewrite join_with_cons. simpl. f_equal.
    rewrite <- join_with_cons, <- split_on_first_rest. exact IH.
Qed.

(** The lines of a string with no trailing white space are left alone by
    the stripping of a line. *)
Lemma no_trailing_space_lines s :
  no_trailing_space s ->
  Forall (fun l => rstrip_by is_space l = l) (split_on LF s).
Proof.
  induction s as [|c r IH]; [intros _; repeat constructor|].
  intros [Hc Hr]. specialize (IH Hr).
  rewrite split_on_cons. destruct (is_nl c) eqn:E.
  - constructor; [reflexivity | exact IH].
  - rewrite split_on_first_rest in IH. inversion IH as [|? ? Hfl Htl]; subst.
    constructor; [|exact Htl].
    destruct (is_space c) eqn:Hs.
    + specialize (Hc eq_refl eq_refl).
      rewrite rstrip_by_keep; [rewrite Hfl; reflexivity|].
      right. rewrite Hfl. destruct r as [|d r']; [contradiction|].
      unfold first_line. rewrite split_on_cons. simpl in Hc. rewrite Hc.
      discriminate.
    + rewrite rstrip_by_keep; [rewrite Hfl; reflexivity | left; exact Hs].
Qed.

Lemma lines_strip_lines_id s :
  Forall (fun l => rstrip_by is_space l = l) (split_on LF s) ->
  strip_lines s = s.
Proof.
  intros H. unfold strip_lines.
  replace (map (rstrip_by is_space) (split_on LF s)) with (split_on LF s);
    [apply join_split|].
  induction H as [|l ls Hl _ IH]; [reflexivity|].
  simpl. rewrite Hl, <- IH. reflexivity.
Qed.

Lemma runs_ok_no_four k s l1 l2 :
  runs_ok k s -> s <> l1 ++ four_line_feeds ++ l2.
Proof.
  revert k s. induction l1 as [|c l1 IH]; intros k s H E; subst s.
  - simpl in H. change (is_nl LF) with true in H. cbv iota in H. lia.
  - simpl in H. destruct (is_nl c).
    + destruct H as [_ H]. apply (IH _ _ H eq_refl).
    + apply (IH _ _ H eq_refl).
Qed.

Lemma leading_nl_split s n :
  n <= leading_nl s -> exists r, s = repeat LF n ++ r.
Proof.
  revert s. induction n as [|n IH]; intros s H; [exists s; reflexivity|].
  destruct s as [|c r]; simpl in H; [lia|].
  destruct (is_nl c) eqn:E; [|lia].
  apply N.eqb_eq in E. subst c.
  destruct (IH r) as (r' & ->); [lia|]. exists r'. reflexivity.
Qed.

Lemma no_four_runs_ok s :
  (forall l1 l2, s <> l1 ++ four_line_feeds ++ l2) ->
  forall k, k + leading_nl s <= 3 -> runs_ok k s.
Proof.
  induction s as [|c r IH]; intros H k Hk; [exact I|].
  assert (Hr : forall l1 l2, r <> l1 ++ four_line_feeds ++ l2).
  { intros l1 l2 E. apply (H (c :: l1) l2). rewrite E. reflexivity. }
  simpl in *. destruct (is_nl c) eqn:E.
  - split; [lia|]. apply (IH Hr). lia.
  - apply (IH Hr). simpl.
    destruct (le_lt_dec (leading_nl r) 3) as [Hle|Hgt]; [exact Hle|].
    exfalso. destruct (leading_nl_split r 4) as (r' & Er); [lia|].
    apply (Hr [] r'). exact Er.
Qed.

Lemma leading_nl_no_four s :
  (forall l1 l2, s <> l1 ++ four_line_feeds ++ l2) -> leading_nl s <= 3.
Proof.
  intros H. destruct (le_lt_dec (leading_nl s) 3) as [Hle|Hgt]; [exact Hle|].
  exfalso. destruct (leading_nl_split s 4) as (r' & Er); [lia|].
  apply (H [] r'). exact Er.
Qed.

Lemma one_final_nl_fixed x :
  (exists z, x = z ++ [LF] /\ endsWith_nl z = false) <-> replace_trailing_nl x = x.
Proof.
  unfold replace_trailing_nl. split.
  - intros (z & -> & Hz).
    rewrite rstrip_by_snoc by reflexivity.
    rewrite (rstrip_by_unchanged z Hz). reflexivity.
  - intros E. exists (rstrip_by is_nl x). split; [symmetry; exact E|].
    apply rstrip_by_not_last.
Qed.

(** X1: the text [formatPython] returns has no carriage return and no tab,
    and none of its lines ends with a white space character. *)
Theorem formatPython_clean_lines x :
  ~ In CR (formatPython x)
  /\ ~ In TAB (formatPython x)
  /\ Forall (fun line => rstrip_by is_space line = line)
       (split_on LF (formatPython x)).
Proof.
  split; [apply formatPython_no_cr|].
  split; [apply formatPython_no_tab|].
  apply no_trailing_space_lines, formatPython_no_trailing_space.
Qed.

(** X2: the text [formatPython] returns ends with exactly one line feed and
    nowhere has four line feeds in a row, that is, never more than two blank
    lines together. *)
Theorem formatPython_blank_lines x :
  (exists z, formatPython x = z ++ [LF] /\ endsWith_nl z = false)
  /\ (forall l1 l2, formatPython x <> l1 ++ [LF; LF; LF; LF] ++ l2).
Proof.
  split.
  - apply one_final_nl_fixed. rewrite formatPython_unfold.
    apply replace_trailing_nl_idem.
  - intros l1 l2. apply (runs_ok_no_four 0), formatPython_runs_ok.
Qed.

(** X3: [formatPython] only touches white space: the characters that are
    not white space come out the same and in the same order. *)
Theorem formatPython_keeps_nonspace x :
  filter (fun c => negb (is_space c)) (formatPython x)
  = filter (fun c => negb (is_space c)) x.
Proof. apply nonspace_formatPython. Qed.

Lemma formatPython_normal_fixed x :
  ~ In CR x -> ~ In TAB x -> strip_lines x = x -> runs_ok 0 x ->
  replace_trailing_nl x = x -> formatPython x = x.
Proof.
  intros Hcr Htab Hs Hr Ht.
  rewrite formatPython_unfold, (replace_crlf_id _ Hcr), (replace_cr_id _ Hcr),
    (replace_tab_id _ Htab), Hs, replace_nl_runs_squeeze, (squeeze_id _ _ Hr).
  exact Ht.
Qed.

Lemma formatPython_twice x : formatPython (formatPython x) = formatPython x.
Proof.
  apply formatPython_normal_fixed.
  - apply formatPython_no_cr.
  - apply formatPython_no_tab.
  - apply strip_lines_id, formatPython_no_trailing_space.
  - apply formatPython_runs_ok.
  - rewrite formatPython_unfold. apply replace_trailing_nl_idem.
Qed.

(** X4: the texts [formatPython] leaves unchanged are exactly those with no
    carriage return, no tab, no line ending in white space, no four line
    feeds in a row and exactly one line feed at the end. *)
Theorem formatPython_fixed_points x :
  formatPython x = x
  <-> (~ In CR x /\ ~ In TAB x
       /\ Forall (fun line => rstrip_by is_space line = line) (split_on LF x)
       /\ (forall l1 l2, x <> l1 ++ [LF; LF; LF; LF] ++ l2)
       /\ exists z, x = z ++ [LF] /\ endsWith_nl z = false).
Proof.
  split.
  - intros E. rewrite <- E. repeat split.
    + apply formatPython_no_cr.
    + apply formatPython_no_tab.
    + apply no_trailing_space_lines, formatPython_no_trailing_space.
    + intros l1 l2. apply (runs_ok_no_four 0), formatPython_runs_ok.
    + apply one_final_nl_fixed. rewrite formatPython_unfold.
      apply replace_trailing_nl_idem.
  - intros (Hcr & Htab & Hl & Hf & Hz).
    apply formatPython_normal_fixed; auto.
    + apply lines_strip_lines_id, Hl.
    + apply (no_four_runs_ok x Hf 0). simpl. apply leading_nl_no_four, Hf.
    + apply one_final_nl_fixed, Hz.
Qed.

Lemma formatPython_has_content x :
  truthy (trim (formatPython x)) = truthy (trim x).
Proof.
  rewrite !truthy_trim_nonspace, nonspace_formatPython. reflexivity.
Qed.

Lemma formatCode_python_returns rt code options :
  truthy (trim code) = true ->
  formatCode rt code (js "python") options = Ok (formatPython code).
Proof.
  intros H. unfold formatCode. rewrite H. cbn [negb]. compare_literals.
  reflexivity.
Qed.

(** X5: for [python], [formatCode] needs no library: on every text with
    content it returns [formatPython] of the text, in every runtime and
    with any options, and what it returns has content too. *)
Theorem formatCode_python rt code options :
  truthy (trim code) = true ->
  formatCode rt code (js "python") options = Ok (formatPython code)
  /\ truthy (trim (formatPython code)) = true.
Proof.
  intros H. split.
  - apply formatCode_python_returns, H.
  - rewrite formatPython_has_content. exact H.
Qed.

Lemma formatCode_python_witness :
  formatCode offline (js "x = 1  ") (js "python") no_options
  = Ok (js "x = 1" ++ [LF]).
Proof.
  apply (proj1 (formatCode_python offline (js "x = 1  ") no_options eq_refl)).
Defined.

(** ** formatter.js: the dispatch of [formatCode] *)

Lemma existsb_eqb_In (x : jsstring) l : existsb (eqb x) l = true <-> In x l.
Proof.
  rewrite existsb_exists. split.
  - intros (y & Hy & E). apply eqb_eq in E. subst. exact Hy.
  - intros H. exists x. split; [exact H | apply eqb_refl].
Qed.

Lemma existsb_eqb_false (x : jsstring) l :
  existsb (eqb x) l = false -> forall y, In y l -> eqb x y = false.
Proof.
  intros H y Hy. destruct (eqb x y) eqn:E; [|reflexivity].
  apply eqb_eq in E. subst y. apply existsb_eqb_In in Hy. congruence.
Qed.

(** X6: text that is empty or all white space is refused by [formatCode]
    with the same message whatever the language tag, supported or not,
    whatever the options and whatever libraries are loaded. *)
Theorem formatCode_blank rt code language options :
  forallb is_space code = true ->
  formatCode rt code language options
  = Throw (js "No code to format. Please enter some code in the input editor.").
Proof.
  intros H. unfold formatCode. rewrite (forallb_space_trim code H). reflexivity.
Qed.

Lemma formatCode_blank_witness :
  formatCode with_diff_libraries [SP; LF; TAB] (js "cobol") no_options
  = Throw (js "No code to format. Please enter some code in the input editor.").
Proof. apply formatCode_blank. reflexivity. Defined.

(** X7: on text with content, a language tag that is not one of the seven
    of the [switch] makes [formatCode] throw [Unsupported language: ]
    followed by the tag, in every runtime; the comparison is exact, so a
    tag in another case is not supported. *)
Theorem formatCode_unsupported rt code language options :
  truthy (trim code) = true ->
  existsb (eqb language) supported_languages = false ->
  formatCode rt code language options
  = Throw (js "Unsupported language: " ++ language).
Proof.
  intros Hc Hl. unfold formatCode. rewrite Hc. cbn [negb].
  pose proof (existsb_eqb_false language supported_languages Hl) as H.
  rewrite !H by (simpl; tauto). reflexivity.
Qed.

Lemma formatCode_unsupported_witness :
  formatCode offline (js "x") (js "Python") no_options
  = Throw (js "Unsupported language: Python").
Proof. apply formatCode_unsupported; reflexivity. Defined.

Lemma formatCode_sql rt code options :
  truthy (trim code) = true ->
  formatCode rt code (js "sql") options
  = formatSQL rt code (or_else (sqlDialect options) (js "sql")).
Proof.
  intros H. unfold formatCode. rewrite H. cbn [negb]. compare_literals.
  reflexivity.
Qed.

(** X8: for [sql] with sql-formatter loaded, [formatCode] gives the
    formatter one of the eight dialects of the allow-list unchanged, the
    dialect [sql] when the option is missing, empty or a name that neither
    the allow-list nor [Object.prototype] has, and for a name that
    [Object.prototype] has (such as [constructor]) not a dialect name but
    the inherited value. *)
Theorem formatCode_sql_dialect rt code format :
  sqlFormatter rt = Some format ->
  truthy (trim code) = true ->
  (forall d, In d languageMap_keys ->
             formatCode rt code (js "sql") {| sqlDialect := Some d |}
             = format code (sql_options (SqlDialect d)))
  /\ formatCode rt code (js "sql") {| sqlDialect := None |}
     = format code (sql_options (SqlDialect (js "sql")))
  /\ formatCode rt code (js "sql") {| sqlDialect := Some [] |}
     = format code (sql_options (SqlDialect (js "sql")))
  /\ (forall d, ~ In d languageMap_keys -> ~ In d object_prototype_keys ->
                formatCode rt code (js "sql") {| sqlDialect := Some d |}
                = format code (sql_options (SqlDialect (js "sql"))))
  /\ (forall d, In d object_prototype_keys ->
                formatCode rt code (js "sql") {| sqlDialect := Some d |}
                = format code (sql_options (SqlInherited d))).
Proof.
  intros Hf Hc.
  assert (Hd : forall d, d <> [] ->
               formatCode rt code (js "sql") {| sqlDialect := Some d |}
               = format code (sql_options (languageMap_lookup d))).
  { intros d Hne. rewrite (formatCode_sql rt code _ Hc). unfold formatSQL.
    rewrite Hf. simpl. destruct d; [contradiction | reflexivity]. }
  assert (Hs : forall o, or_else (sqlDialect o) (js "sql") = js "sql" ->
               formatCode rt code (js "sql") o
               = format code (sql_options (SqlDialect (js "sql")))).
  { intros o E. rewrite (formatCode_sql rt code _ Hc), E. unfold formatSQL.
    rewrite Hf. reflexivity. }
  repeat split.
  - intros d Hin. rewrite Hd.
    + unfold languageMap_lookup.
      apply existsb_eqb_In in Hin. rewrite Hin. reflexivity.
    + intros ->. simpl in Hin. intuition discriminate.
  - apply Hs. reflexivity.
  - apply Hs. reflexivity.
  - intros d H1 H2. destruct d as [|c d]; [apply Hs; reflexivity|].
    rewrite Hd by discriminate. unfold languageMap_lookup.
    destruct (existsb (eqb (c :: d)) languageMap_keys) eqn:E1;
      [apply existsb_eqb_In in E1; contradiction|].
    destruct (existsb (eqb (c :: d)) object_prototype_keys) eqn:E2;
      [apply existsb_eqb_In in E2; contradiction|].
    reflexivity.
  - intros d Hin. rewrite Hd.
    + unfold languageMap_lookup.
      destruct (existsb (eqb d) languageMap_keys) eqn:E1.
      * exfalso. apply existsb_eqb_In in E1. simpl in Hin, E1.
        intuition (subst; discriminate).
      * apply existsb_eqb_In in Hin. rewrite Hin. reflexivity.
    + intros ->. simpl in Hin. intuition discriminate.
Qed.

Lemma formatCode_sql_dialect_witness :
  formatCode with_sql_formatter (js "select 1") (js "sql")
    {| sqlDialect := Some (js "oracle") |}
  = Ok (js "-- sql" ++ [LF] ++ js "select 1")
  /\ formatCode with_sql_formatter (js "select 1") (js "sql")
       {| sqlDialect := Some (js "constructor") |}
     = Throw (js "Unsupported SQL dialect").
Proof.
  split.
  - refine (proj1 (proj2 (proj2 (proj2
              (formatCode_sql_dialect with_sql_formatter (js "select 1") _
                 eq_refl eq_refl)))) (js "oracle") _ _);
      simpl; intuition discriminate.
  - refine (proj2 (proj2 (proj2 (proj2
              (formatCode_sql_dialect with_sql_formatter (js "select 1") _
                 eq_refl eq_refl)))) (js "constructor") _).
    simpl. tauto.
Defined.

(** X9: js-beautify is found under either of its two shapes: whether a
    global is the beautifier function itself or an object holding that
    function under the same name, [formatCode] gives the same result, for
    every language and text. *)
Theorem formatCode_beautify_global rt w1 w2 code language options :
  (forall name,
      w1 name = w2 name
      \/ exists f, w1 name = Some (GlobalFunction f)
                   /\ w2 name = Some (GlobalObject (Some f))) ->
  formatCode (with_window rt w1) code language options
  = formatCode (with_window rt w2) code language options.
Proof.
  intros H.
  assert (Hg : forall name, getBeautify (with_window rt w1) name
                            = getBeautify (with_window rt w2) name).
  { intros name. unfold getBeautify. simpl.
    destruct (H name) as [-> | (f & -> & ->)]; reflexivity. }
  unfold formatCode, formatJavaScript, formatHTML, formatCSS, formatXML.
  rewrite !Hg. reflexivity.
Qed.

Lemma formatCode_beautify_global_witness :
  formatCode
    (with_window offline
       (fun _ => Some (GlobalFunction (fun code _ => Ok (code ++ [LF])))))
    (js "a{}") (js "css") no_options
  = formatCode
      (with_window offline
         (fun _ => Some (GlobalObject (Some (fun code _ => Ok (code ++ [LF]))))))
      (js "a{}") (js "css") no_options.
Proof.
  apply formatCode_beautify_global.
  intros name. right. eexists. split; reflexivity.
Defined.

(** ** differ.js: what jsdiff and diff2html are given *)

Lemma with_final_nl_ends s : endsWith_nl (with_final_nl s) = true.
Proof.
  unfold with_final_nl. destruct (endsWith_nl s) eqn:E; [exact E|].
  apply endsWith_nl_snoc.
Qed.

(** A call that reaches the two libraries. *)
Lemma computeAndRenderDiff_rendered rt patch draw original modified o el :
  Diff rt = Some patch ->
  Diff2HtmlUI rt = Some draw ->
  targetEl o = Some el ->
  eqb original modified = false ->
  truthy (trim original) || truthy (trim modified) = true ->
  computeAndRenderDiff rt original modified o
  = (Some (draw
             (patch
                (or_else (baseLabel o)
                   (default_to (fileName o) (js "file") ++ js " (original)"))
                (or_else (otherLabel o)
                   (default_to (fileName o) (js "file") ++ js " (modified)"))
                (with_final_nl original) (with_final_nl modified) [] []
                {| context := 3%N |})
             (diff2html_configuration rt o)),
     Ok {| identical := false |}).
Proof.
  intros Hp Hd Ht He Hb. unfold computeAndRenderDiff.
  rewrite Ht, He, Hp, Hd.
  destruct (truthy (trim original)), (truthy (trim modified));
    try discriminate; reflexivity.
Qed.

(** X10: when [computeAndRenderDiff] reaches jsdiff, both texts it hands
    over end with a line feed: a text that ends with one is handed over as
    it is, any other with one line feed added; the context is 3 lines and
    the rendered markup is what diff2html draws for that patch. *)
Theorem computeAndRenderDiff_final_line_feed rt patch draw original modified o el :
  Diff rt = Some patch ->
  Diff2HtmlUI rt = Some draw ->
  targetEl o = Some el ->
  eqb original modified = false ->
  truthy (trim original) || truthy (trim modified) = true ->
  exists origHeader modHeader origText modText,
    fst (computeAndRenderDiff rt original modified o)
    = Some (draw (patch origHeader modHeader origText modText [] []
                    {| context := 3%N |})
              (diff2html_configuration rt o))
    /\ endsWith_nl origText = true /\ endsWith_nl modText = true
    /\ (origText = original \/ origText = original ++ [LF])
    /\ (modText = modified \/ modText = modified ++ [LF])
    /\ (endsWith_nl original = true -> origText = original)
    /\ (endsWith_nl modified = true -> modText = modified).
Proof.
  intros Hp Hd Ht He Hb.
  rewrite (computeAndRenderDiff_rendered rt patch draw _ _ o el Hp Hd Ht He Hb).
  do 2 eexists. exists (with_final_nl original), (with_final_nl modified).
  split; [reflexivity|].
  split; [apply with_final_nl_ends|]. split; [apply with_final_nl_ends|].
  unfold with_final_nl.
  destruct (endsWith_nl original), (endsWith_nl modified); repeat split; auto;
    discriminate.
Qed.

Lemma computeAndRenderDiff_final_line_feed_witness :
  exists origHeader modHeader origText modText,
    fst (computeAndRenderDiff with_diff_libraries (js "a") (js "b" ++ [LF])
           (with_targetEl no_diff_options []))
    = Some (js "--- " ++ origHeader ++ [LF] ++ js "+++ " ++ modHeader ++ [LF]
            ++ origText ++ modText)
    /\ endsWith_nl origText = true /\ endsWith_nl modText = true
    /\ (origText = js "a" \/ origText = js "a" ++ [LF])
    /\ (modText = js "b" ++ [LF] \/ modText = (js "b" ++ [LF]) ++ [LF])
    /\ (endsWith_nl (js "a") = true -> origText = js "a")
    /\ (endsWith_nl (js "b" ++ [LF]) = true -> modText = js "b" ++ [LF]).
Proof.
  exact (computeAndRenderDiff_final_line_feed with_diff_libraries _ _
           (js "a") (js "b" ++ [LF]) (with_targetEl no_diff_options []) []
           eq_refl eq_refl eq_refl eq_refl eq_refl).
Defined.

(** X11: a text with content and the same text with one more line feed at
    the end are reported as changed, although jsdiff is given the same text
    twice (when the shorter one has no final line feed), so that the patch
    that is rendered is one between two equal texts. *)
Theorem computeAndRenderDiff_final_line_feed_only rt patch draw text o el :
  Diff rt = Some patch ->
  Diff2HtmlUI rt = Some draw ->
  targetEl o = Some el ->
  truthy (trim text) = true ->
  endsWith_nl text = false ->
  exists origHeader modHeader,
    computeAndRenderDiff rt text (text ++ [LF]) o
    = (Some (draw (patch origHeader modHeader (text ++ [LF]) (text ++ [LF]) [] []
                     {| context := 3%N |})
               (diff2html_configuration rt o)),
       Ok {| identical := false |}).
Proof.
  intros Hp Hd Ht Hc He.
  assert (Hne : eqb text (text ++ [LF]) = false).
  { apply eqb_neq. intros E. apply (f_equal (@length _)) in E.
    rewrite length_app in E. simpl in E. lia. }
  rewrite (computeAndRenderDiff_rendered rt patch draw _ _ o el Hp Hd Ht Hne)
    by (rewrite Hc; reflexivity).
  do 2 eexists. unfold with_final_nl. rewrite He, endsWith_nl_snoc. reflexivity.
Qed.

Lemma computeAndRenderDiff_final_line_feed_only_witness :
  exists origHeader modHeader,
    computeAndRenderDiff with_diff_libraries (js "a") (js "a" ++ [LF])
      (with_targetEl no_diff_options [])
    = (Some (js "--- " ++ origHeader ++ [LF] ++ js "+++ " ++ modHeader ++ [LF]
             ++ (js "a" ++ [LF]) ++ (js "a" ++ [LF])),
       Ok {| identical := false |}).
Proof.
  exact (computeAndRenderDiff_final_line_feed_only with_diff_libraries _ _
           (js "a") (with_targetEl no_diff_options []) []
           eq_refl eq_refl eq_refl eq_refl eq_refl).
Defined.

(** X12: the call throws [Target element is required] when it is given no
    target element, whatever the two texts (equal or not) and whatever is
    loaded, and renders nothing; and a call that throws for a missing
    library leaves its target element empty. *)
Theorem computeAndRenderDiff_throws rt original modified o :
  (targetEl o = None ->
   computeAndRenderDiff rt original modified o
   = (None, Throw target_required_message))
  /\ (forall m, snd (computeAndRenderDiff rt original modified o) = Throw m ->
                fst (computeAndRenderDiff rt original modified o) = None
                \/ fst (computeAndRenderDiff rt original modified o) = Some []).
Proof.
  split.
  - intros E. unfold computeAndRenderDiff. rewrite E. reflexivity.
  - intros m. unfold computeAndRenderDiff.
    destruct (targetEl o); [|left; reflexivity].
    destruct (eqb original modified); [discriminate|].
    destruct (_ && _); [discriminate|].
    destruct (Diff rt); [|right; reflexivity].
    destruct (Diff2HtmlUI rt); [discriminate | right; reflexivity].
Qed.

Lemma computeAndRenderDiff_throws_witness :
  computeAndRenderDiff with_diff_libraries (js "a") (js "a") no_diff_options
  = (None, Throw target_required_message)
  /\ (fst (computeAndRenderDiff offline (js "a") (js "b")
             (with_targetEl no_diff_options (js "old")))
      = None
      \/ fst (computeAndRenderDiff offline (js "a") (js "b")
                (with_targetEl no_diff_options (js "old")))
         = Some []).
Proof.
  split.
  - apply (proj1 (computeAndRenderDiff_throws with_diff_libraries (js "a") (js "a")
                    no_diff_options)). reflexivity.
  - apply (proj2 (computeAndRenderDiff_throws offline (js "a") (js "b")
                    (with_targetEl no_diff_options (js "old")))
             jsdiff_missing_message). reflexivity.
Defined.

(** ** app.js: the page a run of [handleDiff] leaves *)

Lemma diff_editors_run rt bc bt mode lang others :
  forall acc p,
    fst (diff_editors rt bc bt mode lang others acc p)
    = with_container p
        (diff_output_container p
         ++ map (loop_element rt bc bt mode lang p)
              (firstn (attempts (map (loop_outcome rt bc bt mode lang p) others))
                 others)).
Proof.
  induction others as [|k rest IH]; intros acc p.
  - simpl. rewrite app_nil_r. destruct p; reflexivity.
  - cbn [diff_editors map]. cbv zeta.
    fold (loop_outcome rt bc bt mode lang p k).
    destruct (loop_outcome rt bc bt mode lang p k) as [d|m] eqn:E.
    + rewrite IH. cbn [attempts firstn map].
      change (map (loop_outcome rt bc bt mode lang (with_container p _)) rest)
        with (map (loop_outcome rt bc bt mode lang p) rest).
      change (loop_element rt bc bt mode lang (with_container p _))
        with (loop_element rt bc bt mode lang p).
      simpl diff_output_container. rewrite <- app_assoc. reflexivity.
    + reflexivity.
Qed.

Lemma validation_failure_valid p :
  validation_failure p = None <-> session_valid p = true.
Proof.
  unfold validation_failure, session_valid.
  destruct (has_content p (primary p)), (existsb (has_content p) (otherKeys p));
    simpl; split; congruence.
Qed.

Lemma handleDiff_compared rt p :
  session_valid p = true -> handleDiff rt p = compared_page rt p.
Proof.
  intros Hv. unfold session_valid in Hv. apply andb_true_iff in Hv.
  destruct Hv as [Hbase Hex].
  assert (Hothers : othersWithContent p <> []).
  { intros E. apply othersWithContent_nil in E. congruence. }
  unfold handleDiff. cbv zeta.
  pose proof (format_editors_preformatted rt (with_container p [])) as Hf.
  change (has_content (with_container p [])) with (has_content p) in Hf |- *.
  change (primary (with_container p [])) with (primary p).
  change (diff_language (with_container p [])) with (diff_language p) in Hf |- *.
  change (diff_view_mode (with_container p [])) with (diff_view_mode p).
  rewrite Hf. clear Hf.
  fold (otherKeys p). fold (othersWithContent p).
  assert (Hn : Nat.eqb (length (othersWithContent p)) 0 = false).
  { destruct (othersWithContent p); [contradiction | reflexivity]. }
  rewrite Hbase, Hn. cbn [negb andb].
  set (p1 := preformatted rt (with_container p [])).
  set (bc := getDiffEditorContent p1 (primary p)).
  set (bt := getDiffEditorTitle p1 (primary p)).
  assert (Hrs : map (loop_outcome rt bc bt (diff_view_mode p) (diff_language p) p1)
                  (othersWithContent p)
                = collected_results rt p).
  { unfold collected_results. apply map_ext. intros k.
    unfold pair_result, loop_outcome, bc, p1.
    rewrite !content_preformatted. reflexivity. }
  assert (Hel : forall l,
             map (loop_element rt bc bt (diff_view_mode p) (diff_language p) p1) l
             = map (pair_element rt p) l).
  { intros l. apply map_ext. intros k.
    unfold pair_element, loop_element, bc, p1.
    rewrite !content_preformatted. reflexivity. }
  pose proof (diff_editors_run rt bc bt (diff_view_mode p) (diff_language p)
                (othersWithContent p) true p1) as Hfst.
  pose proof (diff_editors_spec rt bc bt (diff_view_mode p) (diff_language p)
                (othersWithContent p) true p1) as Hsnd.
  cbv zeta in Hsnd. destruct Hsnd as [_ Hsnd].
  rewrite Hrs in Hfst, Hsnd. rewrite Hel in Hfst.
  destruct (diff_editors _ _ _ _ _ _ _ _) as [p2 r].
  simpl in Hfst, Hsnd. subst p2 r.
  unfold compared_page, verdict, compared_keys.
  destruct (first_throw (collected_results rt p)) as [m|]; [reflexivity|].
  simpl andb. destruct (forallb is_identical (collected_results rt p)); reflexivity.
Qed.

Lemma handleDiff_refused rt p m :
  validation_failure p = Some m ->
  handleDiff rt p = showStatus (with_container p []) m (js "error").
Proof. apply handleDiff_rejected. Qed.

Lemma handleDiff_cases rt p :
  (session_valid p = true /\ handleDiff rt p = compared_page rt p)
  \/ (session_valid p = false
      /\ exists m, validation_failure p = Some m
                   /\ handleDiff rt p = showStatus (with_container p []) m (js "error")).
Proof.
  destruct (validation_failure p) as [m|] eqn:E.
  - right. split.
    + destruct (session_valid p) eqn:Hv; [|reflexivity].
      apply validation_failure_valid in Hv. congruence.
    + exists m. split; [reflexivity | apply handleDiff_refused, E].
  - left. apply validation_failure_valid in E.
    split; [exact E | apply handleDiff_compared, E].
Qed.

(** X13: what a run of [handleDiff] leaves does not depend on the results
    and the status that were shown before it; and a run never changes the
    titles, the base, the two selectors of the diff panel or the editors of
    the format panel. *)
Theorem handleDiff_fresh_and_frame rt p :
  (forall c, handleDiff rt (with_container p c) = handleDiff rt p)
  /\ (forall m t, handleDiff rt (showStatus p m t) = handleDiff rt p)
  /\ title_inputs (handleDiff rt p) = title_inputs p
  /\ primary (handleDiff rt p) = primary p
  /\ diff_view_mode (handleDiff rt p) = diff_view_mode p
  /\ diff_language (handleDiff rt p) = diff_language p
  /\ formatInput (editors (handleDiff rt p)) = formatInput (editors p)
  /\ formatOutput (editors (handleDiff rt p)) = formatOutput (editors p).
Proof.
  destruct (handleDiff_cases rt p) as [[Hv E] | [Hv (m & Hm & E)]].
  - split; [|split].
    + intros c. rewrite E. apply (handleDiff_compared rt (with_container p c) Hv).
    + intros m t. rewrite E. apply (handleDiff_compared rt (showStatus p m t) Hv).
    + rewrite E. repeat split.
  - split; [|split].
    + intros c. rewrite E. apply (handleDiff_refused rt (with_container p c) m Hm).
    + intros m' t. rewrite E. apply (handleDiff_refused rt (showStatus p m' t) m Hm).
    + rewrite E. repeat split.
Qed.

Lemma othersWithContent_filter p :
  othersWithContent p
  = filter (fun k => negb (key_eqb k (primary p)) && has_content p k) allKeys.
Proof.
  unfold othersWithContent, otherKeys, allKeys.
  destruct (primary p); cbn [filter key_eqb negb andb];
    destruct (has_content p A), (has_content p B), (has_content p C);
    reflexivity.
Qed.

(** X14: after a run of [handleDiff] that passes validation and in which
    every comparison returns, the output holds exactly one result element
    for each editor other than the base that has content, in the order A, B,
    C, each headed by the escaped title of the base and of that editor and
    holding what the comparison of the two formatted texts rendered. *)
Theorem handleDiff_result_elements rt p :
  session_valid p = true ->
  forallb returned (collected_results rt p) = true ->
  diff_output_container (handleDiff rt p)
  = map (fun k =>
           {| diff_result_header :=
                js "<span class=" ++ dquote ++ js "base-name" ++ dquote ++ js ">"
                ++ escapeHtml (getDiffEditorTitle p (primary p))
                ++ js "</span> vs " ++ escapeHtml (getDiffEditorTitle p k);
              diff_result_body :=
                default_to
                  (fst (computeAndRenderDiff rt
                          (formatted_content rt p (primary p))
                          (formatted_content rt p k) (pair_options p k)))
                  [] |})
      (filter (fun k => negb (key_eqb k (primary p)) && has_content p k) [A; B; C]).
Proof.
  intros Hv Hr. rewrite (handleDiff_compared rt p Hv).
  apply first_throw_none in Hr.
  unfold compared_page, compared_keys. simpl diff_output_container.
  rewrite (attempts_all_returned _ Hr).
  unfold collected_results. rewrite length_map, firstn_all.
  rewrite othersWithContent_filter. reflexivity.
Qed.

Lemma handleDiff_result_elements_witness :
  map diff_result_header
    (diff_output_container
       (handleDiff offline (with_primary (page_with (js "x") (js "x") (js "x")) B)))
  = [js "<span class=" ++ dquote ++ js "base-name" ++ dquote
     ++ js ">Editor B</span> vs Editor A";
     js "<span class=" ++ dquote ++ js "base-name" ++ dquote
     ++ js ">Editor B</span> vs Editor C"].
Proof.
  rewrite (handleDiff_result_elements offline
             (with_primary (page_with (js "x") (js "x") (js "x")) B)
             eq_refl eq_refl).
  reflexivity.
Defined.

Lemma existsb_pointwise {T} (f g : T -> bool) l :
  (forall x, f x = g x) -> existsb f l = existsb g l.
Proof.
  intros H. induction l as [|x l IH]; [reflexivity|].
  simpl. rewrite H, IH. reflexivity.
Qed.

Lemma formatted_document_content rt p k :
  getEditorContent (formatted_document rt p k) = formatted_content rt p k.
Proof.
  rewrite <- document_preformatted. apply content_preformatted.
Qed.

(** The Python clean-up writes no carriage return, so an editor reads its
    text back as it is. *)
Lemma normalize_formatPython x :
  normalize_line_breaks (formatPython x) = formatPython x.
Proof. apply normalize_line_breaks_id, formatPython_no_cr. Qed.

Lemma python_formatted_content rt p k :
  diff_language p = js "python" ->
  formatted_content rt p k
  = if has_content p k then formatPython (getDiffEditorContent p k)
    else getDiffEditorContent p k.
Proof.
  intros Hl. unfold formatted_content. destruct (has_content p k) eqn:E; [|reflexivity].
  rewrite Hl, (formatCode_python_returns rt _ no_options E).
  apply normalize_formatPython.
Qed.

Lemma python_formatted_document rt p k :
  diff_language p = js "python" ->
  formatted_document rt p k
  = if has_content p k then formatPython (getDiffEditorContent p k)
    else getDiffEditor p k.
Proof.
  intros Hl. unfold formatted_document. destruct (has_content p k) eqn:E; [|reflexivity].
  rewrite Hl, (formatCode_python_returns rt _ no_options E).
  apply normalize_formatPython.
Qed.

Lemma compared_page_ext rt q p :
  (forall k, formatted_document rt q k = formatted_document rt p k) ->
  (forall k, has_content q k = has_content p k) ->
  title_inputs q = title_inputs p -> primary q = primary p ->
  diff_view_mode q = diff_view_mode p -> diff_language q = diff_language p ->
  format_language q = format_language p -> sql_dialect q = sql_dialect p ->
  formatInput (editors q) = formatInput (editors p) ->
  formatOutput (editors q) = formatOutput (editors p) ->
  compared_page rt q = compared_page rt p.
Proof.
  intros Hfd Hhc Ht Hp Hvm Hl Hfl Hsd Hfi Hfo.
  assert (Hfc : forall k, formatted_content rt q k = formatted_content rt p k).
  { intros k. rewrite <- !formatted_document_content, Hfd. reflexivity. }
  assert (Ho : othersWithContent q = othersWithContent p).
  { unfold othersWithContent, otherKeys. rewrite Hp. apply filter_ext, Hhc. }
  assert (Hti : forall k, getDiffEditorTitle q k = getDiffEditorTitle p k).
  { intros k. unfold getDiffEditorTitle, title_input. rewrite Ht. reflexivity. }
  assert (Hpo : forall k, pair_options q k = pair_options p k).
  { intros k. unfold pair_options. rewrite !Hti, Hvm, Hl, Hp. reflexivity. }
  assert (Hpr : forall k, pair_result rt q k = pair_result rt p k).
  { intros k. unfold pair_result. rewrite !Hfc, Hpo, Hp. reflexivity. }
  assert (Hcr : collected_results rt q = collected_results rt p).
  { unfold collected_results. rewrite Ho. apply map_ext, Hpr. }
  assert (Hpe : forall k, pair_element rt q k = pair_element rt p k).
  { intros k. unfold pair_element. rewrite !Hfc, !Hti, Hpo, Hp. reflexivity. }
  unfold compared_page, compared_keys, verdict, preformatted.
  rewrite Hcr, Ho, Ht, Hp, Hvm, Hl, Hfl, Hsd.
  rewrite (map_ext _ _ Hpe). simpl editors. rewrite !Hfd, Hfi, Hfo.
  reflexivity.
Qed.

(** X15: with [python] as the diff language a second run of [handleDiff]
    changes nothing: the page after two runs is the page after one, in
    every runtime, whether the run compares or fails validation. *)
Theorem handleDiff_python_twice rt p :
  diff_language p = js "python" ->
  handleDiff rt (handleDiff rt p) = handleDiff rt p.
Proof.
  intros Hl.
  destruct (handleDiff_cases rt p) as [[Hv E] | [Hv (m & Hm & E)]]; rewrite E.
  - assert (Hd : forall k, getDiffEditor (compared_page rt p) k
                           = formatted_document rt p k).
    { intros k. destruct k; reflexivity. }
    assert (Hc : forall k, getDiffEditorContent (compared_page rt p) k
                           = formatted_content rt p k).
    { intros k. unfold getDiffEditorContent. rewrite Hd.
      apply formatted_document_content. }
    assert (Hhc : forall k, has_content (compared_page rt p) k = has_content p k).
    { intros k. unfold has_content at 1. rewrite Hc, (python_formatted_content rt p k Hl).
      unfold has_content.
      destruct (truthy (trim (getDiffEditorContent p k))) eqn:Ek; [|exact Ek].
      rewrite formatPython_has_content. exact Ek. }
    assert (Hfc : forall k, formatted_document rt (compared_page rt p) k
                            = formatted_document rt p k).
    { intros k.
      rewrite (python_formatted_document rt (compared_page rt p) k Hl), Hhc, Hc, Hd.
      rewrite (python_formatted_content rt p k Hl).
      rewrite (python_formatted_document rt p k Hl).
      destruct (has_content p k); [apply formatPython_twice | reflexivity]. }
    assert (Hv' : session_valid (compared_page rt p) = true).
    { unfold session_valid in *. rewrite Hhc.
      change (otherKeys (compared_page rt p)) with (otherKeys p).
      rewrite (existsb_pointwise _ _ _ Hhc). exact Hv. }
    rewrite (handleDiff_compared rt _ Hv').
    rewrite (compared_page_ext rt (compared_page rt p) p Hfc Hhc);
      reflexivity.
  - rewrite (handleDiff_refused rt (showStatus (with_container p []) m (js "error"))
               m Hm).
    reflexivity.
Qed.

Lemma handleDiff_python_twice_witness :
  handleDiff with_diff_libraries
    (handleDiff with_diff_libraries (page_with (js "a  ") (js "b") []))
  = handleDiff with_diff_libraries (page_with (js "a  ") (js "b") []).
Proof. apply handleDiff_python_twice. reflexivity. Defined.

(** ** app.js: clearing, rotating and the format panel *)

Lemma handleDiffClear_unfold p :
  handleDiffClear p =
  showStatus
    (with_primary
       (with_container
          (with_title_inputs
             (with_editors p
                {| formatInput := formatInput (editors p);
                   formatOutput := formatOutput (editors p);
                   diffA := []; diffB := []; diffC := [] |})
             {| titleA := clear_title (titleA (title_inputs p));
                titleB := clear_title (titleB (title_inputs p));
                titleC := clear_title (titleC (title_inputs p)) |})
          [])
       A)
    editors_cleared_message (js "success").
Proof. vm_compute. reflexivity. Qed.

Lemma handleDiffClear_twice p : handleDiffClear (handleDiffClear p) = handleDiffClear p.
Proof.
  destruct p as [e [[a|] [b|] [c|]] pr vm lang fl sd cont st];
    vm_compute; reflexivity.
Qed.

Lemma handleDiffClear_no_content p k : has_content (handleDiffClear p) k = false.
Proof. rewrite handleDiffClear_unfold. destruct k; reflexivity. Qed.

Lemma handleDiffClear_then_handleDiff rt p :
  handleDiff rt (handleDiffClear p)
  = showStatus (handleDiffClear p) nothing_to_compare_message (js "error").
Proof.
  rewrite (handleDiff_refused rt (handleDiffClear p) nothing_to_compare_message).
  - rewrite handleDiffClear_unfold. reflexivity.
  - unfold validation_failure. rewrite handleDiffClear_no_content.
    assert (E : existsb (has_content (handleDiffClear p)) (otherKeys (handleDiffClear p))
                = false).
    { apply othersWithContent_nil. unfold othersWithContent.
      induction (otherKeys (handleDiffClear p)) as [|k ks IH]; [reflexivity|].
      cbn [filter]. rewrite handleDiffClear_no_content. exact IH. }
    rewrite E. reflexivity.
Qed.

Lemma handleDiffClear_then_handleCycle p :
  handleCycle (handleDiffClear p)
  = showStatus (handleDiffClear p) contents_cycled_message (js "success").
Proof.
  destruct p as [e [[a|] [b|] [c|]] pr vm lang fl sd cont st];
    vm_compute; reflexivity.
Qed.

(** X16: [handleDiffClear] empties the three diff editors, the titles that
    exist and the output, and makes [A] the base; it leaves the format
    panel alone; clearing twice is clearing once; and on a cleared page
    [handleDiff] fails with [NothingToCompare] in every runtime, while a
    rotation moves nothing. *)
Theorem handleDiffClear_resets rt p :
  (forall k, getDiffEditorContent (handleDiffClear p) k = []
             /\ title_input (handleDiffClear p) k = clear_title (title_input p k))
  /\ primary (handleDiffClear p) = A
  /\ diff_output_container (handleDiffClear p) = []
  /\ formatInput (editors (handleDiffClear p)) = formatInput (editors p)
  /\ formatOutput (editors (handleDiffClear p)) = formatOutput (editors p)
  /\ handleDiffClear (handleDiffClear p) = handleDiffClear p
  /\ handleDiff rt (handleDiffClear p)
     = showStatus (handleDiffClear p) nothing_to_compare_message (js "error")
  /\ handleCycle (handleDiffClear p)
     = showStatus (handleDiffClear p) contents_cycled_message (js "success").
Proof.
  split; [intros k; rewrite handleDiffClear_unfold; destruct k; split; reflexivity|].
  split; [rewrite handleDiffClear_unfold; reflexivity|].
  split; [rewrite handleDiffClear_unfold; reflexivity|].
  split; [rewrite handleDiffClear_unfold; reflexivity|].
  split; [rewrite handleDiffClear_unfold; reflexivity|].
  split; [apply handleDiffClear_twice|].
  split; [apply handleDiffClear_then_handleDiff | apply handleDiffClear_then_handleCycle].
Qed.

Lemma handleCycle_has_content p :
  has_content (handleCycle p) A = has_content p C
  /\ has_content (handleCycle p) B = has_content p A
  /\ has_content (handleCycle p) C = has_content p B.
Proof.
  unfold has_content.
  destruct (handleCycle_content p) as (-> & -> & ->). repeat split.
Qed.

(** X17: a rotation keeps the base on its pane and keeps the number of
    editors with content; each pane gets the content of the pane before it,
    so whether the base has content after the rotation is whether the pane
    before it had; and three rotations give every page its three contents
    back, title inputs existing or not. *)
Theorem handleCycle_keeps p :
  primary (handleCycle p) = primary p
  /\ count_with_content (handleCycle p) = count_with_content p
  /\ has_content (handleCycle p) A = has_content p C
  /\ has_content (handleCycle p) B = has_content p A
  /\ has_content (handleCycle p) C = has_content p B
  /\ (forall k, getDiffEditorContent (handleCycle (handleCycle (handleCycle p))) k
                = getDiffEditorContent p k).
Proof.
  split; [rewrite handleCycle_unfold; reflexivity|].
  destruct (handleCycle_has_content p) as (HA & HB & HC).
  split.
  { unfold count_with_content, allKeys. cbn [filter]. rewrite HA, HB, HC.
    destruct (has_content p A), (has_content p B), (has_content p C); reflexivity. }
  split; [exact HA|]. split; [exact HB|]. split; [exact HC|].
  intros k.
  destruct (handleCycle_content (handleCycle (handleCycle p))) as (E1 & E2 & E3).
  destruct (handleCycle_content (handleCycle p)) as (F1 & F2 & F3).
  destruct (handleCycle_content p) as (G1 & G2 & G3).
  destruct k; congruence.
Qed.




(** X19: after [handleFormatClear] both editors of the format panel are
    empty and the diff panel is as it was, and [handleFormat] then fails
    with [No code to format], for every language and runtime, leaving the
    output empty. *)
Theorem handleFormatClear_then_format rt p :
  formatInput (editors (handleFormatClear p)) = []
  /\ formatOutput (editors (handleFormatClear p)) = []
  /\ (forall k, getDiffEditor (handleFormatClear p) k = getDiffEditor p k)
  /\ handleFormat rt (handleFormatClear p)
     = showStatus (handleFormatClear p)
         (js "No code to format. Please enter some code in the input editor.")
         (js "error").
Proof.
  split; [reflexivity|]. split; [reflexivity|].
  split; [intros k; destruct k; reflexivity | reflexivity].
Qed.

(** ** app.js: titles and their markup *)



Lemma escapeHtml_flat_map s : escapeHtml s = flat_map escape_char s.
Proof. reflexivity. Qed.

Lemma escape_char_cases c :
  (c = 38%N /\ escape_char c = js "&amp;")
  \/ (c = 60%N /\ escape_char c = js "&lt;")
  \/ (c = 62%N /\ escape_char c = js "&gt;")
  \/ (c = 160%N /\ escape_char c = js "&nbsp;")
  \/ (c <> 38%N /\ c <> 60%N /\ c <> 62%N /\ c <> 160%N /\ escape_char c = [c]).
Proof.
  unfold escape_char.
  destruct (N.eqb_spec c 38); [left; split; auto|].
  destruct (N.eqb_spec c 60); [right; left; split; auto|].
  destruct (N.eqb_spec c 62); [right; right; left; split; auto|].
  destruct (N.eqb_spec c 160); [right; right; right; left; split; auto|].
  right; right; right; right. repeat split; auto.
Qed.

Lemma escapeHtml_cons c s : escapeHtml (c :: s) = escape_char c ++ escapeHtml s.
Proof. reflexivity. Qed.

Lemma escapeHtml_injective a : forall b, escapeHtml a = escapeHtml b -> a = b.
Proof.
  induction a as [|x a IH]; intros [|y b] H.
  - reflexivity.
  - exfalso. rewrite escapeHtml_cons in H.
    destruct (escape_char_cases y)
      as [[_ E]|[[_ E]|[[_ E]|[[_ E]|(_ & _ & _ & _ & E)]]]];
      rewrite E in H; discriminate.
  - exfalso. rewrite escapeHtml_cons in H.
    destruct (escape_char_cases x)
      as [[_ E]|[[_ E]|[[_ E]|[[_ E]|(_ & _ & _ & _ & E)]]]];
      rewrite E in H; discriminate.
  - rewrite !escapeHtml_cons in H.
    destruct (escape_char_cases x)
      as [[Hx Ex]|[[Hx Ex]|[[Hx Ex]|[[Hx Ex]|(Hx1 & Hx2 & Hx3 & Hx4 & Ex)]]]];
      destruct (escape_char_cases y)
        as [[Hy Ey]|[[Hy Ey]|[[Hy Ey]|[[Hy Ey]|(Hy1 & Hy2 & Hy3 & Hy4 & Ey)]]]];
      rewrite Ex, Ey in H; cbn [js app String.length] in H;
      try discriminate H;
      inversion H; subst; try congruence;
      f_equal; apply IH; assumption.
Qed.

Lemma escapeHtml_no_angle x s : x = 60%N \/ x = 62%N -> ~ In x (escapeHtml s).
Proof.
  intros Hx. rewrite escapeHtml_flat_map, in_flat_map. intros (c & _ & Hin).
  destruct (escape_char_cases c)
    as [[Hc E]|[[Hc E]|[[Hc E]|[[Hc E]|(H1 & H2 & H3 & H4 & E)]]]];
    rewrite E in Hin; simpl in Hin;
    destruct Hx; subst x; intuition (try discriminate; congruence).
Qed.

Lemma escapeHtml_plain s :
  (forall c, In c s -> c <> 38%N /\ c <> 60%N /\ c <> 62%N /\ c <> 160%N) ->
  escapeHtml s = s.
Proof.
  induction s as [|c r IH]; intros H; [reflexivity|].
  rewrite escapeHtml_cons.
  destruct (escape_char_cases c)
    as [[Hc E]|[[Hc E]|[[Hc E]|[[Hc E]|(H1 & H2 & H3 & H4 & E)]]]];
    try (exfalso; destruct (H c (or_introl eq_refl)) as (? & ? & ? & ?); congruence).
  rewrite E. simpl. f_equal. apply IH. intros d Hd. apply H. right. exact Hd.
Qed.

(** X21: [escapeHtml] leaves no [<] and no [>] in its result, leaves text
    without [&], [<], [>] and no-break space as it is, and never gives two
    different texts the same markup. *)
Theorem escapeHtml_safe s :
  ~ In 60%N (escapeHtml s) /\ ~ In 62%N (escapeHtml s)
  /\ ((forall c, In c s -> c <> 38%N /\ c <> 60%N /\ c <> 62%N /\ c <> 160%N) ->
      escapeHtml s = s)
  /\ (forall t, escapeHtml s = escapeHtml t -> s = t).
Proof.
  split; [apply escapeHtml_no_angle; auto|].
  split; [apply escapeHtml_no_angle; auto|].
  split; [apply escapeHtml_plain | apply escapeHtml_injective].
Qed.

Lemma escapeHtml_safe_witness : escapeHtml (js "Editor A") = js "Editor A".
Proof.
  apply (proj1 (proj2 (proj2 (escapeHtml_safe (js "Editor A"))))).
  intros c Hc. simpl in Hc.
  repeat (destruct Hc as [<- | Hc]; [repeat split; discriminate|]).
  contradiction.
Defined.

Example escapeHtml_example :
  escapeHtml (js "a<b> & c") = js "a&lt;b&gt; &amp; c".
Proof. reflexivity. Qed.

(** ** app.js: the theme *)

Lemma setTheme_state theme st :
  setTheme theme st
  = {| theme_attribute := Some theme;
       theme_storage := Some theme;
       editor_dark := map (fun _ => eqb theme (js "dark")) (editor_dark st) |}.
Proof. reflexivity. Qed.

(** What [toggleTheme] sets: [light] on a dark page, [dark] on any other. *)
Lemma toggleTheme_cases st :
  (theme_attribute st = Some (js "dark")
   /\ toggleTheme st = setTheme (js "light") st)
  \/ (theme_attribute st <> Some (js "dark")
      /\ toggleTheme st = setTheme (js "dark") st).
Proof.
  unfold toggleTheme. destruct (theme_attribute st) as [t|].
  - destruct (eqb t (js "dark")) eqn:E.
    + left. apply eqb_eq in E. subst t. split; reflexivity.
    + right. split; [|reflexivity]. intros [= ->]. discriminate.
  - right. split; [discriminate | reflexivity].
Qed.

Lemma map_const_map {T U V} (u : U) (v : V) (l : list T) :
  map (fun _ => v) (map (fun _ => u) l) = map (fun _ => v) l.
Proof. induction l as [|x l IH]; [reflexivity|]. simpl. rewrite IH. reflexivity. Qed.

Lemma toggleTheme_setTheme theme st :
  toggleTheme (setTheme theme st)
  = setTheme (if eqb theme (js "dark") then js "light" else js "dark") st.
Proof.
  unfold toggleTheme. rewrite (setTheme_state theme st).
  cbn [theme_attribute]. rewrite !setTheme_state. cbn [editor_dark].
  rewrite map_const_map. reflexivity.
Qed.

(** X22: [toggleTheme] leaves the page dark or light, with the attribute,
    the stored item and every editor agreeing; it makes a dark page light
    and any other page dark, so from the first toggle on it is an
    involution: three toggles are one, and two toggles give a dark or a
    light page its theme back. *)
Theorem toggleTheme_alternates st :
  let st1 := toggleTheme st in
  (theme_attribute st1 = Some (js "dark") \/ theme_attribute st1 = Some (js "light"))
  /\ theme_storage st1 = theme_attribute st1
  /\ getTheme st1 = default_to (theme_attribute st1) []
  /\ editor_dark st1
     = map (fun _ => eqb (getTheme st1) (js "dark")) (editor_dark st)
  /\ (theme_attribute st = Some (js "dark") <-> theme_attribute st1 = Some (js "light"))
  /\ toggleTheme (toggleTheme st1) = st1
  /\ theme_attribute (toggleTheme st1)
     = Some (if eqb (default_to (theme_attribute st) []) (js "dark")
             then js "dark" else js "light").
Proof.
  intros st1. subst st1.
  destruct (toggleTheme_cases st) as [[Ha E] | [Ha E]]; rewrite E, !setTheme_state.
  - split; [right; reflexivity|]. split; [reflexivity|]. split; [reflexivity|].
    split; [reflexivity|]. split; [split; [reflexivity | intros _; exact Ha]|].
    split.
    + rewrite <- !setTheme_state, !toggleTheme_setTheme. reflexivity.
    + rewrite <- !setTheme_state, toggleTheme_setTheme, Ha. reflexivity.
  - split; [left; reflexivity|]. split; [reflexivity|]. split; [reflexivity|].
    split; [reflexivity|]. split; [split; [intros H; contradiction | discriminate]|].
    split.
    + rewrite <- !setTheme_state, !toggleTheme_setTheme. reflexivity.
    + rewrite <- !setTheme_state, toggleTheme_setTheme.
      destruct (theme_attribute st) as [t|]; [|reflexivity].
      cbn [default_to]. destruct (eqb t (js "dark")) eqn:Et; [|reflexivity].
      apply eqb_eq in Et. subst t. contradiction.
Qed.

(** X23: the theme survives a reload: a page loaded with the item a toggle
    stored comes up with the theme of that toggle on the attribute and on
    each of its five editors; a page loaded with no item, or an empty one,
    comes up light; and whatever the item, the attribute is what [getTheme]
    reads and the editors are dark exactly when it is [dark]. *)
Theorem init_theme_restores st storage :
  theme_attribute (init_theme (theme_storage (toggleTheme st)))
  = theme_attribute (toggleTheme st)
  /\ editor_dark (init_theme (theme_storage (toggleTheme st)))
     = repeat (eqb (getTheme (toggleTheme st)) (js "dark")) 5
  /\ theme_attribute (init_theme None) = Some (js "light")
  /\ theme_attribute (init_theme (Some [])) = Some (js "light")
  /\ theme_attribute (init_theme storage) = Some (or_else storage (js "light"))
  /\ editor_dark (init_theme storage)
     = repeat (eqb (or_else storage (js "light")) (js "dark")) 5
  /\ theme_storage (init_theme storage) = storage.
Proof.
  assert (Hi : forall s,
             theme_attribute (init_theme s) = Some (or_else s (js "light"))
             /\ editor_dark (init_theme s)
                = repeat (eqb (or_else s (js "light")) (js "dark")) 5).
  { intros s. unfold init_theme, getTheme. cbn [theme_storage theme_attribute editor_dark].
    split; [reflexivity|].
    destruct (eqb (or_else s (js "light")) (js "dark")); reflexivity. }
  split.
  { destruct (toggleTheme_cases st) as [[_ E] | [_ E]]; rewrite E; reflexivity. }
  split.
  { destruct (toggleTheme_cases st) as [[_ E] | [_ E]]; rewrite E; reflexivity. }
  split; [reflexivity|]. split; [reflexivity|].
  split; [apply Hi|]. split; [apply Hi | reflexivity].
Qed.

(** ** The two-pane version of app.js *)

Lemma TwoPane_handleDiff_unfold rt p :
  TwoPane.handleDiff rt p =
  let rendered :=
    computeAndRenderDiff rt
      (getEditorContent (TwoPane.diffOriginal (TwoPane.editors p)))
      (getEditorContent (TwoPane.diffModified (TwoPane.editors p)))
      {| targetEl := Some (TwoPane.diff_output p);
         viewMode := Some (TwoPane.diff_view_mode p);
         fileName := Some (js "file." ++ TwoPane.diff_language p);
         baseLabel := None;
         otherLabel := None |} in
  TwoPane.showStatus
    (TwoPane.with_diff_output p (default_to (fst rendered) (TwoPane.diff_output p)))
    (match snd rendered with
     | Ok result =>
         if identical result then no_differences_message
         else TwoPane.diff_computed_successfully_message
     | Throw err_message => err_message
     end)
    (match snd rendered with Ok _ => js "success" | Throw _ => js "error" end).
Proof.
  unfold TwoPane.handleDiff. cbv zeta.
  destruct (snd (computeAndRenderDiff _ _ _ _)) as [[[|]]|m]; reflexivity.
Qed.

(** The status [TwoPane.handleDiff] shows for two texts. *)
Lemma TwoPane_status rt p original modified :
  getEditorContent (TwoPane.diffOriginal (TwoPane.editors p)) = original ->
  getEditorContent (TwoPane.diffModified (TwoPane.editors p)) = modified ->
  TwoPane.status_bar (TwoPane.handleDiff rt p)
  = if eqb original modified
       || (negb (truthy (trim original)) && negb (truthy (trim modified)))
    then success no_differences_message
    else match Diff rt with
         | None => error jsdiff_missing_message
         | Some _ =>
             match Diff2HtmlUI rt with
             | None => error diff2html_missing_message
             | Some _ => success TwoPane.diff_computed_successfully_message
             end
         end.
Proof.
  intros Eo Em. rewrite TwoPane_handleDiff_unfold. cbv zeta. rewrite Eo, Em.
  match goal with
  | |- context [computeAndRenderDiff rt original modified ?o] =>
      rewrite (computeAndRenderDiff_result rt original modified o
                 (TwoPane.diff_output p) eq_refl)
  end.
  destruct (_ || _); [reflexivity|].
  destruct (Diff rt); [|reflexivity].
  destruct (Diff2HtmlUI rt); reflexivity.
Qed.

Lemma TwoPane_handleSwap_content p :
  getEditorContent (TwoPane.diffOriginal (TwoPane.editors (TwoPane.handleSwap p)))
  = getEditorContent (TwoPane.diffModified (TwoPane.editors p))
  /\ getEditorContent (TwoPane.diffModified (TwoPane.editors (TwoPane.handleSwap p)))
     = getEditorContent (TwoPane.diffOriginal (TwoPane.editors p)).
Proof.
  split.
  - change (getEditorContent
              (setEditorContent (TwoPane.diffOriginal (TwoPane.editors p))
                 (getEditorContent (TwoPane.diffModified (TwoPane.editors p))))
            = getEditorContent (TwoPane.diffModified (TwoPane.editors p))).
    rewrite getEditorContent_setEditorContent. apply normalize_line_breaks_idem.
  - change (getEditorContent
              (setEditorContent (TwoPane.diffModified (TwoPane.editors p))
                 (getEditorContent (TwoPane.diffOriginal (TwoPane.editors p))))
            = getEditorContent (TwoPane.diffOriginal (TwoPane.editors p))).
    rewrite getEditorContent_setEditorContent. apply normalize_line_breaks_idem.
Qed.

(** X24: the two-pane [handleDiff] validates nothing and formats nothing:
    it compares what the two editors hold, as they are; the status is
    [No differences found] exactly when the texts are equal or both blank
    (two empty editors included), else [Diff computed successfully] when
    jsdiff and diff2html are loaded and the message of the missing library
    when not; the editors are left alone; and the status is the same after
    the panels are swapped. *)
Theorem TwoPane_handleDiff_status rt p :
  let original := getEditorContent (TwoPane.diffOriginal (TwoPane.editors p)) in
  let modified := getEditorContent (TwoPane.diffModified (TwoPane.editors p)) in
  TwoPane.status_bar (TwoPane.handleDiff rt p)
  = (if eqb original modified
        || (negb (truthy (trim original)) && negb (truthy (trim modified)))
     then success no_differences_message
     else match Diff rt with
          | None => error jsdiff_missing_message
          | Some _ =>
              match Diff2HtmlUI rt with
              | None => error diff2html_missing_message
              | Some _ => success TwoPane.diff_computed_successfully_message
              end
          end)
  /\ TwoPane.editors (TwoPane.handleDiff rt p) = TwoPane.editors p
  /\ TwoPane.status_bar (TwoPane.handleDiff rt (TwoPane.handleSwap p))
     = TwoPane.status_bar (TwoPane.handleDiff rt p).
Proof.
  intros original modified. split; [apply TwoPane_status; reflexivity|]. split.
  - rewrite TwoPane_handleDiff_unfold. reflexivity.
  - destruct (TwoPane_handleSwap_content p) as [Eo Em].
    rewrite (TwoPane_status rt (TwoPane.handleSwap p) _ _ Eo Em).
    rewrite (TwoPane_status rt p original modified eq_refl eq_refl).
    fold original modified.
    rewrite (eqb_sym modified original),
      (andb_comm (negb (truthy (trim modified)))).
    reflexivity.
Qed.

(** X25: [handleSwap] exchanges what the two diff editors hold and touches
    nothing else but the status; two swaps give both editors their text
    back. *)
Theorem TwoPane_handleSwap_exchanges p :
  let content_original q := getEditorContent (TwoPane.diffOriginal (TwoPane.editors q)) in
  let content_modified q := getEditorContent (TwoPane.diffModified (TwoPane.editors q)) in
  content_original (TwoPane.handleSwap p) = content_modified p
  /\ content_modified (TwoPane.handleSwap p) = content_original p
  /\ content_original (TwoPane.handleSwap (TwoPane.handleSwap p)) = content_original p
  /\ content_modified (TwoPane.handleSwap (TwoPane.handleSwap p)) = content_modified p
  /\ TwoPane.diff_output (TwoPane.handleSwap p) = TwoPane.diff_output p
  /\ TwoPane.formatInput (TwoPane.editors (TwoPane.handleSwap p))
     = TwoPane.formatInput (TwoPane.editors p)
  /\ TwoPane.formatOutput (TwoPane.editors (TwoPane.handleSwap p))
     = TwoPane.formatOutput (TwoPane.editors p)
  /\ TwoPane.status_bar (TwoPane.handleSwap p) = success TwoPane.panels_swapped_message.
Proof.
  intros content_original content_modified. subst content_original content_modified.
  cbv beta.
  destruct (TwoPane_handleSwap_content p) as [Eo Em].
  destruct (TwoPane_handleSwap_content (TwoPane.handleSwap p)) as [Eo2 Em2].
  split; [exact Eo|]. split; [exact Em|].
  split; [rewrite Eo2; exact Em|]. split; [rewrite Em2; exact Eo|].
  repeat split.
Qed.

(** X26: the two-pane [handleDiffClear] empties both diff editors and the
    output and leaves the format panel alone; a comparison right after it
    is not refused, as it is in the three-pane version: in every runtime it
    reports [No differences found] and shows the notice for identical
    inputs. *)
Theorem TwoPane_handleDiffClear_then_handleDiff rt p :
  TwoPane.diffOriginal (TwoPane.editors (TwoPane.handleDiffClear p)) = []
  /\ TwoPane.diffModified (TwoPane.editors (TwoPane.handleDiffClear p)) = []
  /\ TwoPane.diff_output (TwoPane.handleDiffClear p) = []
  /\ TwoPane.formatInput (TwoPane.editors (TwoPane.handleDiffClear p))
     = TwoPane.formatInput (TwoPane.editors p)
  /\ TwoPane.formatOutput (TwoPane.editors (TwoPane.handleDiffClear p))
     = TwoPane.formatOutput (TwoPane.editors p)
  /\ TwoPane.handleDiff rt (TwoPane.handleDiffClear p)
     = TwoPane.showStatus
         (TwoPane.with_diff_output (TwoPane.handleDiffClear p) no_changes_identical_html)
         no_differences_message (js "success").
Proof. repeat split. Qed.
